(** * NewsService: a shallow embedding of the news-aggregation class

  The development follows [NewsService] (TypeScript): the dual-provider
  lookup [getLatestNews] with its ordered fallback, the free-text parser
  [parseNewsResponse] with its regular-expression heuristics, the
  placeholder generator [getMockNews] and the category front end
  [getNewsByCategory].

  JavaScript strings are sequences of UTF-16 code units; they are modelled
  as lists of [N].  The regular expressions of the source are kept as
  syntax trees and run by a backtracking matcher that follows the
  ECMAScript matching order (leftmost start, alternatives left to right,
  greedy repetition). *)

From Stdlib Require Import NArith ZArith Lia Bool Ascii String DecimalString.
From stdpp Require Import base option list gmap.

Set Default Proof Using "Type".
Local Open Scope N_scope.

(** ** Strings *)

Module JsString.

Abbreviation jsstring := (list N).

(** A literal of the source, written with a Rocq string of ASCII
    characters. *)
Definition str (s : string) : jsstring :=
  map N_of_ascii (list_ascii_of_string s).

(** ECMAScript WhiteSpace and LineTerminator code units: what [\s] matches
    and what [String.prototype.trim] strips. *)
Definition is_space (c : N) : bool :=
  ((9 <=? c) && (c <=? 13)) || (c =? 32) || (c =? 160) || (c =? 5760)
  || ((8192 <=? c) && (c <=? 8202)) || (c =? 8232) || (c =? 8233)
  || (c =? 8239) || (c =? 8287) || (c =? 12288) || (c =? 65279).

Definition is_digit (c : N) : bool := (48 <=? c) && (c <=? 57).
Definition is_upper (c : N) : bool := (65 <=? c) && (c <=? 90).
Definition is_lower (c : N) : bool := (97 <=? c) && (c <=? 122).

(** [\w]: the word characters that decide [\b]. *)
Definition is_word (c : N) : bool :=
  is_upper c || is_lower c || is_digit c || (c =? 95).

Definition ascii_lower (c : N) : N := if is_upper c then c + 32 else c.
Definition ascii_upper (c : N) : N := if is_lower c then c - 32 else c.

Fixpoint trimStart (s : jsstring) : jsstring :=
  match s with
  | c :: s' => if is_space c then trimStart s' else s
  | [] => []
  end.

Definition trimEnd (s : jsstring) : jsstring := rev (trimStart (rev s)).

(** [String.prototype.trim]. *)
Definition trim (s : jsstring) : jsstring := trimEnd (trimStart s).

(** [s.split(sep)] for a one-unit separator: the pieces between the
    separators, empty pieces included. *)
Fixpoint split (sep : N) (s : jsstring) : list jsstring :=
  match s with
  | [] => [[]]
  | c :: s' =>
      if c =? sep then [] :: split sep s'
      else match split sep s' with
           | piece :: pieces => (c :: piece) :: pieces
           | [] => [[c]]
           end
  end.

(** [s.substring(0, n)]. *)
Definition substring0 (n : nat) (s : jsstring) : jsstring := take n s.

(** [s.endsWith(c)] for a one-unit argument. *)
Definition endsWith (c : N) (s : jsstring) : bool :=
  match last s with
  | Some d => d =? c
  | None => false
  end.

(** A string is truthy when it is not empty. *)
Definition nonempty (s : jsstring) : bool :=
  match s with [] => false | _ :: _ => true end.

(** [String.prototype.toLowerCase] on the Basic Latin letters; other code
    units are kept.  The category table below has only Basic Latin keys
    without the letter k, the one letter a code point outside Basic Latin
    (U+212A) lowers to, so a lookup of the lowered label gives the same
    answer as with the full Unicode mapping. *)
Definition toLowerCase (s : jsstring) : jsstring := map ascii_lower s.

(** [Array.prototype.slice(0, end)] for an integer [end]: a negative
    [end] counts from the back. *)
Definition slice0 {A} (e : Z) (l : list A) : list A :=
  if (e <? 0)%Z then take (Z.to_nat (Z.of_nat (length l) + e)) l
  else take (Z.to_nat e) l.

(** Number-to-string conversion of an integer, as a template literal
    does it: the decimal digits.  From 10^21 on JavaScript prints the
    exponent form instead; the only use is the prompt text sent to the
    primary provider. *)
Definition numberToString (z : Z) : jsstring :=
  str (NilEmpty.string_of_int (Z.to_int z)).

End JsString.
Import JsString.

(** ** Regular expressions *)

Module Regex.

(** The members of a character class. *)
Inductive cset :=
| CChar (c : N)
| CRange (lo hi : N)
| CDigit
| CSpace
| CUnion (a b : cset).

Fixpoint cset_mem (cs : cset) (c : N) : bool :=
  match cs with
  | CChar d => c =? d
  | CRange lo hi => (lo <=? c) && (c <=? hi)
  | CDigit => is_digit c
  | CSpace => is_space c
  | CUnion a b => cset_mem a c || cset_mem b c
  end.

(** Membership under the [i] flag (no [u] flag): the code unit and the
    member are compared after canonicalisation.  The classes of the source
    have Basic Latin letters and white space only, for which this is
    comparison up to the case of a Basic Latin letter: a code unit outside
    Basic Latin never canonicalises to one inside. *)
Definition cset_test (ci : bool) (cs : cset) (c : N) : bool :=
  cset_mem cs c
  || (ci && (cset_mem cs (ascii_upper c) || cset_mem cs (ascii_lower c))).

Inductive regex :=
| Empty
| Class (invert : bool) (cs : cset)
| Seq (r1 r2 : regex)
| Alt (r1 r2 : regex)
| Star (r : regex)
| Group (r : regex)
| Bol
| Eol
| WordBoundary.

Definition Plus (r : regex) : regex := Seq r (Star r).
Definition Chr (c : N) : regex := Class false (CChar c).

(** A literal run of characters. *)
Fixpoint Lit (s : jsstring) : regex :=
  match s with
  | [] => Empty
  | c :: s' => Seq (Chr c) (Lit s')
  end.

(** The matcher state: the input already passed (latest first), the input
    ahead, and the text of capture group 1. *)
Record mstate := MState {
  before : list N;
  after : list N;
  capture : option jsstring
}.

Definition is_word_at (l : list N) : bool :=
  match l with
  | c :: _ => is_word c
  | [] => false
  end.

(** Backtracking matcher in continuation-passing style.  A repetition
    tries one more round first (greedy) and refuses a round that consumes
    nothing. *)
Fixpoint rmatch (ci : bool) (r : regex) (k : mstate -> option mstate)
    (st : mstate) : option mstate :=
  match r with
  | Empty => k st
  | Class inv cs =>
      match after st with
      | c :: rest =>
          if xorb inv (cset_test ci cs c)
          then k (MState (c :: before st) rest (capture st))
          else None
      | [] => None
      end
  | Seq r1 r2 => rmatch ci r1 (rmatch ci r2 k) st
  | Alt r1 r2 =>
      match rmatch ci r1 k st with
      | Some res => Some res
      | None => rmatch ci r2 k st
      end
  | Star r' =>
      (fix loop (fuel : nat) (st : mstate) : option mstate :=
         match fuel with
         | O => k st
         | S fuel' =>
             match rmatch ci r'
                     (fun st' =>
                        if (length (after st') <? length (after st))%nat
                        then loop fuel' st' else None) st with
             | Some res => Some res
             | None => k st
             end
         end) (length (after st)) st
  | Group r' =>
      rmatch ci r'
        (fun st' =>
           k (MState (before st') (after st')
                (Some (take (length (after st) - length (after st'))%nat
                         (after st))))) st
  | Bol => match before st with [] => k st | _ :: _ => None end
  | Eol => match after st with [] => k st | _ :: _ => None end
  | WordBoundary =>
      if xorb (is_word_at (before st)) (is_word_at (after st))
      then k st else None
  end.

(** A successful match: the text before it, the text after it and the
    capture. *)
Record rmatch_result := MatchResult {
  m_prefix : jsstring;
  m_suffix : jsstring;
  m_group1 : option jsstring
}.

(** The leftmost match: start positions are tried from left to right.
    [passed] is the input before the start position, latest first. *)
Fixpoint search (ci : bool) (r : regex) (passed : list N) (s : jsstring)
    : option rmatch_result :=
  match rmatch ci r Some (MState passed s None) with
  | Some st => Some (MatchResult (rev passed) (after st) (capture st))
  | None =>
      match s with
      | [] => None
      | c :: s' => search ci r (c :: passed) s'
      end
  end.

(** [re.exec(s)] / [s.match(re)] for a regular expression without the
    [g] flag. *)
Definition exec (ci : bool) (r : regex) (s : jsstring)
    : option rmatch_result :=
  search ci r [] s.

(** [re.test(s)]. *)
Definition test (ci : bool) (r : regex) (s : jsstring) : bool :=
  match exec ci r s with Some _ => true | None => false end.

(** [s.replace(re, '')]: the leftmost match is cut out. *)
Definition replace_empty (ci : bool) (r : regex) (s : jsstring) : jsstring :=
  match exec ci r s with
  | Some m => m_prefix m ++ m_suffix m
  | None => s
  end.

End Regex.
Import Regex.

(** ** The heuristics of the parser *)

Definition bullet : N := 8226.

(** [/^\d+\./] *)
Definition re_numbered : regex :=
  Seq Bol (Seq (Plus (Class false CDigit)) (Chr 46)).

(** [/^[•\-\*]/] *)
Definition bullet_class : cset :=
  CUnion (CChar bullet) (CUnion (CChar 45) (CChar 42)).

Definition re_bullet : regex := Seq Bol (Class false bullet_class).

(** [/^[A-Z][^.]*:/] *)
Definition re_label : regex :=
  Seq Bol (Seq (Class false (CRange 65 90))
             (Seq (Star (Class true (CChar 46))) (Chr 58))).

(** [/^[A-Z]/] *)
Definition re_capital : regex := Seq Bol (Class false (CRange 65 90)).

Definition looksLikeTitle (line : jsstring) : bool :=
  test false re_numbered line
  || test false re_bullet line
  || test false re_label line
  || ((length line <? 100)%nat && test false re_capital line
      && negb (endsWith 46 line)).

(** [/^\d+\.\s*/] *)
Definition re_numbering : regex :=
  Seq re_numbered (Star (Class false CSpace)).

(** [/^[•\-\*]\s*/] *)
Definition re_bullet_lead : regex :=
  Seq re_bullet (Star (Class false CSpace)).

(** [/\s*-\s*[^-]*$/] *)
Definition re_source_tail : regex :=
  Seq (Star (Class false CSpace))
    (Seq (Chr 45)
       (Seq (Star (Class false CSpace))
          (Seq (Star (Class true (CChar 45))) Eol))).

Definition cleanTitle (title : jsstring) : jsstring :=
  trim (replace_empty false re_source_tail
          (replace_empty false re_bullet_lead
             (replace_empty false re_numbering title))).

Definition letters : cset := CUnion (CRange 65 90) (CRange 97 122).

(** [/(?:Source:|via|from)\s*([A-Za-z\s]+)$/i] *)
Definition re_source_word : regex :=
  Seq (Alt (Lit (str "Source:")) (Alt (Lit (str "via")) (Lit (str "from"))))
    (Seq (Star (Class false CSpace))
       (Seq (Group (Plus (Class false (CUnion letters CSpace)))) Eol)).

(** [[A-Z][a-z]+] *)
Definition re_capitalized : regex :=
  Seq (Class false (CRange 65 90)) (Plus (Class false (CRange 97 122))).

(** The second pattern of [extractSource]: a dash, optional white space,
    then group 1, one or more capitalized words [[A-Z][a-z]+] separated by
    white space, up to the end of the text. *)
Definition re_source_dash : regex :=
  Seq (Chr 45)
    (Seq (Star (Class false CSpace))
       (Seq (Group
               (Seq re_capitalized
                  (Star (Seq (Plus (Class false CSpace)) re_capitalized))))
          Eol)).

Definition extractSource (text : jsstring) : option jsstring :=
  let sourceMatch :=
    match exec true re_source_word text with
    | Some m => Some m
    | None => exec false re_source_dash text
    end in
  match sourceMatch with
  | Some m => Some (trim (default [] (m_group1 m)))
  | None => None
  end.

Definition relative_time_words : list jsstring :=
  [str "today"; str "yesterday"; str "this morning"; str "this afternoon";
   str "earlier today"].

(** [/\b(?:today|yesterday|this morning|this afternoon|earlier today)\b/i] *)
Definition re_relative_time : regex :=
  Seq WordBoundary
    (Seq (Alt (Lit (str "today"))
            (Alt (Lit (str "yesterday"))
               (Alt (Lit (str "this morning"))
                  (Alt (Lit (str "this afternoon"))
                     (Lit (str "earlier today"))))))
       WordBoundary).


(** ** Data model *)

(** [NewsArticle].  A field that is [undefined] at run time is [None]; the
    parser's accumulator ([Partial<NewsArticle>]) is the same record, and the
    cast [as NewsArticle] changes nothing at run time. *)
Record NewsArticle := mkArticle {
  title : option jsstring;
  summary : option jsstring;
  url : option jsstring;
  source : option jsstring;
  publishedAt : option jsstring
}.

(** The object [{}]. *)
Definition emptyArticle : NewsArticle := mkArticle None None None None None.

(** Truthiness of a field that holds a string or is [undefined]. *)
Definition truthy (field : option jsstring) : bool :=
  match field with
  | Some s => nonempty s
  | None => false
  end.

(** ** The free-text parser *)

Section Parser.

(** [clock i] is what the [i]-th evaluation of
    [new Date().toISOString()] returns; the number of evaluations made so far
    is threaded through the code that reads the clock. *)
Variable clock : nat -> jsstring.

Definition extractDate (text : jsstring) (ticks : nat)
    : option jsstring * nat :=
  if test true re_relative_time text
  then (Some (clock ticks), S ticks)
  else (None, ticks).

(** The variables of the loop of [parseNewsResponse]. *)
Record pstate := PState {
  articles : list NewsArticle;
  currentArticle : NewsArticle;
  ticks : nat
}.

(** [articles.push(currentArticle)] under its guard. *)
Definition pushCurrent (st : pstate) : list NewsArticle :=
  if truthy (title (currentArticle st)) && truthy (summary (currentArticle st))
  then articles st ++ [currentArticle st]
  else articles st.

(** One round of the loop over the lines. *)
Definition parseLine (st : pstate) (line : jsstring) : pstate :=
  let trimmedLine := trim line in
  if negb (nonempty trimmedLine) then st
  else if looksLikeTitle trimmedLine then
    let articles' := pushCurrent st in
    let newTitle := cleanTitle trimmedLine in
    let newSource := extractSource trimmedLine in
    let '(newDate, ticks') := extractDate trimmedLine (ticks st) in
    PState articles'
      (mkArticle (Some newTitle) (Some []) None newSource newDate)
      ticks'
  else if truthy (title (currentArticle st))
          && (20 <? length trimmedLine)%nat then
    let cur := currentArticle st in
    let summary' :=
      if negb (truthy (summary cur)) then trimmedLine
      else default [] (summary cur) ++ str " " ++ trimmedLine in
    PState (articles st)
      (mkArticle (title cur) (Some summary') (url cur) (source cur)
         (publishedAt cur))
      (ticks st)
  else st.

(** [content.split('\n').filter(line => line.trim())] *)
Definition contentLines (content : jsstring) : list jsstring :=
  List.filter (fun line => nonempty (trim line)) (split 10 content).

(** The loop and the push of the last article: the articles found by the
    line scan, before the fallback and the cap. *)
Definition scanLines (content : jsstring) (ticks0 : nat) : pstate :=
  foldl parseLine (PState [] emptyArticle ticks0) (contentLines content).

Definition scannedArticles (content : jsstring) (ticks0 : nat)
    : list NewsArticle :=
  pushCurrent (scanLines content ticks0).

Definition fallbackArticle (content : jsstring) (now : jsstring)
    : NewsArticle :=
  mkArticle (Some (str "Latest News Summary"))
    (Some (substring0 500 (trim content)
           ++ (if (500 <? length content)%nat then str "..." else [])))
    None None (Some now).

Definition parseNewsResponse (content : jsstring) (ticks0 : nat)
    : list NewsArticle * nat :=
  let st := scanLines content ticks0 in
  let found := pushCurrent st in
  let '(all, ticks1) :=
    if (length found =? 0)%nat && nonempty (trim content)
    then (found ++ [fallbackArticle content (clock (ticks st))], S (ticks st))
    else (found, ticks st) in
  (slice0 5 all, ticks1).

End Parser.

Definition storm_text : jsstring :=
  str "1. Storm Hits City" ++ [10]
  ++ str "Heavy rain caused flooding across downtown. - Local News" ++ [10]
  ++ str "2. Market Rally" ++ [10]
  ++ str "Stocks rose sharply today.".


(** ** Values, errors and effects of the service *)

(** The values the [query] argument can hold at run time.  The TypeScript
    type is [string]; [getNewsByCategory] can nevertheless pass on what a
    property read of its table returns, and an object literal inherits the
    properties of [Object.prototype]. *)
Inductive jsvalue :=
| VString (s : jsstring)
| VFunction (name : jsstring)   (* a built-in function object *)
| VObjectPrototype.             (* the object [Object.prototype] *)

(** [String(v)], as a template literal applies it. *)
Definition toString (v : jsvalue) : jsstring :=
  match v with
  | VString s => s
  | VFunction name => str "function " ++ name ++ str "() { [native code] }"
  | VObjectPrototype => str "[object Object]"
  end.

(** Truthiness: of these values only the empty string is falsy. *)
Definition truthyValue (v : jsvalue) : bool :=
  match v with
  | VString s => nonempty s
  | _ => true
  end.

Inductive error :=
| RequestFailed      (* the promise of axios rejects: network error, status outside 2xx *)
| TypeError          (* a property read or a call on a value of the wrong shape *)
| NoNewsApiKey.      (* [new Error('NewsAPI key not available')] *)

Inductive outcome (A : Type) :=
| Return (a : A)
| Throw (e : error).
Arguments Return {A} a.
Arguments Throw {A} e.

(** Computations of the service: they read the clock and either return or
    throw.  The state is the number of clock readings made so far. *)
Definition M (A : Type) : Type := nat -> outcome A * nat.

Definition ret {A} (a : A) : M A := fun t => (Return a, t).
Definition throw {A} (e : error) : M A := fun t => (Throw e, t).

Definition bind {A B} (m : M A) (f : A -> M B) : M B :=
  fun t =>
    match m t with
    | (Return a, t') => f a t'
    | (Throw e, t') => (Throw e, t')
    end.

(** [try { m } catch (e) { h(e) }] *)
Definition try_catch {A} (m : M A) (h : error -> M A) : M A :=
  fun t =>
    match m t with
    | (Return a, t') => (Return a, t')
    | (Throw e, t') => h e t'
    end.

Notation "'do' x <- m ; k" := (bind m (fun x => k))
  (at level 10, x name, m at level 100, k at level 200).

(** The body of the reply of the natural-language provider, as far as
    [response.data.choices[0]?.message?.content] looks into it. *)
Inductive PerplexityReply :=
| PRejected                         (* the request fails *)
| PNoChoices                        (* [data.choices] is undefined: reading [[0]] throws *)
| PContent (content : option jsstring)
    (* the optional chain ends in a string, or in [undefined]/[null] *)
| PContentNotText.                  (* a truthy content without a [split] method *)

(** An element of [response.data.articles] of the structured-data provider.
    [r_source] is [article.source?.name]. *)
Record RawArticle := mkRaw {
  r_title : option jsstring;
  r_description : option jsstring;
  r_content : option jsstring;
  r_url : option jsstring;
  r_source : option jsstring;
  r_publishedAt : option jsstring
}.

Inductive NewsApiReply :=
| NRejected                         (* the request fails *)
| NNoArticles                       (* [data.articles] is no array of articles: [.map] throws *)
| NArticles (l : list RawArticle).

(** The [params] of the request to the structured-data provider. *)
Record NewsApiParams := mkParams {
  p_q : jsvalue;
  p_pageSize : Z;
  p_sortBy : jsstring;
  p_language : jsstring;
  p_apiKey : jsstring
}.

(** What the service does not control: the clock and the two providers.
    A provider is a function of the request it is sent.  The lines written
    to the console are not part of the model. *)
Record Env := mkEnv {
  clock : nat -> jsstring;
  perplexity_post : jsstring -> jsstring -> PerplexityReply;
    (* bearer credential, prompt *)
  newsapi_get : NewsApiParams -> NewsApiReply
}.

(** [NewsResponse]; the fields [articles], [query] and [timestamp] carry a
    prefix here, [articles] being the name of a variable of the parser. *)
Record NewsResponse := mkResponse {
  r_articles : list NewsArticle;
  r_query : jsvalue;
  r_timestamp : jsstring
}.

(** The fields of the class. *)
Record NewsService := mkService {
  perplexityApiKey : jsstring;
  newsApiKey : jsstring
}.

(** [constructor(perplexityApiKey, newsApiKey?)] *)
Definition newNewsService (perplexityApiKey : jsstring)
    (newsApiKey : option jsstring) : NewsService :=
  mkService perplexityApiKey
    (if truthy newsApiKey then default [] newsApiKey else []).

Section Service.

Variable env : Env.
Variable this : NewsService.

(** [new Date().toISOString()] *)
Definition now : M jsstring := fun t => (Return (clock env t), S t).

Definition quote : jsstring := [34].

Definition prompt (query : jsvalue) (limit : Z) : jsstring :=
  str "Find the " ++ numberToString limit
  ++ str " most recent and important news stories about " ++ quote
  ++ toString query ++ quote ++ str ". " ++ [10]
  ++ str "    " ++ [10]
  ++ str "    For each story, provide:" ++ [10]
  ++ str "    - Title" ++ [10]
  ++ str "    - Brief summary (2-3 sentences)" ++ [10]
  ++ str "    - Source name if available" ++ [10]
  ++ str "    " ++ [10]
  ++ str "    Format as a numbered list. Focus on current, factual news from reliable sources.".

(** [this.parseNewsResponse(content)], which reads the clock of [env]. *)
Definition parseContent (content : jsstring) : M (list NewsArticle) :=
  fun t =>
    let '(parsed, t') := parseNewsResponse (clock env) content t in
    (Return parsed, t').

Definition getNewsFromPerplexity (query : jsvalue) (limit : Z)
    : M NewsResponse :=
  try_catch
    (do content <-
       match perplexity_post env (perplexityApiKey this)
               (prompt query limit) with
       | PRejected => throw RequestFailed
       | PNoChoices => throw TypeError
       | PContentNotText => throw TypeError
       | PContent c => ret (if truthy c then default [] c else [])
       end ;
     do parsed <- parseContent content ;
     do stamp <- now ;
     ret (mkResponse parsed query stamp))
    (fun error => throw error).

(** The callback of [response.data.articles.map]. *)
Definition mapArticle (article : RawArticle) : NewsArticle :=
  mkArticle (r_title article)
    (Some (if truthy (r_description article)
           then default [] (r_description article)
           else match r_content article with
                | Some c => substring0 200 c
                | None => str "undefined"
                end ++ str "..."))
    (r_url article) (r_source article) (r_publishedAt article).

Definition getNewsFromNewsAPI (query : jsvalue) (limit : Z)
    : M NewsResponse :=
  if negb (nonempty (newsApiKey this)) then throw NoNewsApiKey
  else
    do raw <-
      match newsapi_get env
              (mkParams query limit (str "publishedAt") (str "en")
                 (newsApiKey this)) with
      | NRejected => throw RequestFailed
      | NNoArticles => throw TypeError
      | NArticles l => ret l
      end ;
    do stamp <- now ;
    ret (mkResponse (map mapArticle raw) query stamp).

Definition getMockNews (query : jsvalue) (limit : Z) : M NewsResponse :=
  do stamp1 <- now ;
  do stamp2 <- now ;
  let mockArticles :=
    [ mkArticle (Some (str "Latest Updates on " ++ toString query))
        (Some (str "We are currently experiencing technical difficulties with our news sources. Please try again later for the most recent updates."))
        None (Some (str "News AI Bot")) (Some stamp1);
      mkArticle (Some (str "Service Notice"))
        (Some (str "Our news service is temporarily unavailable. We are working to restore full functionality as soon as possible."))
        None (Some (str "System")) (Some stamp2) ] in
  do stamp <- now ;
  ret (mkResponse (slice0 limit mockArticles) query stamp).

(** The default values of the two parameters stand in for omitted
    arguments only; the callers pass both. *)
Definition getLatestNews (query : jsvalue) (limit : Z) : M NewsResponse :=
  try_catch (getNewsFromPerplexity query limit)
    (fun perplexityError =>
       try_catch (getNewsFromNewsAPI query limit)
         (fun newsApiError => getMockNews query limit)).

(** The own properties of the object literal [categoryQueries]. *)
Definition categoryQueries : gmap jsstring jsstring :=
  list_to_map
    [ (str "technology", str "latest technology news today");
      (str "business", str "latest business and finance news today");
      (str "sports", str "latest sports news today");
      (str "health", str "latest health and medical news today");
      (str "science", str "latest science and research news today");
      (str "politics", str "latest political news today");
      (str "world", str "latest world news today");
      (str "entertainment", str "latest entertainment news today") ].

(** The properties of [Object.prototype], the prototype of every object
    literal: the accessor [__proto__] returns the prototype itself, the
    others are built-in functions. *)
Definition objectPrototype : gmap jsstring jsvalue :=
  list_to_map
    ((str "__proto__", VObjectPrototype)
     :: (str "constructor", VFunction (str "Object"))
     :: map (fun name => (str name, VFunction (str name)))
          [ "hasOwnProperty"; "isPrototypeOf"; "propertyIsEnumerable";
            "toLocaleString"; "toString"; "valueOf"; "__defineGetter__";
            "__defineSetter__"; "__lookupGetter__"; "__lookupSetter__" ]%string).

(** The property read [categoryQueries[key]]: the own properties first, then
    the prototype chain; [None] is [undefined]. *)
Definition getProperty (key : jsstring) : option jsvalue :=
  match categoryQueries !! key with
  | Some q => Some (VString q)
  | None => objectPrototype !! key
  end.

Definition getNewsByCategory (category : jsstring) (limit : Z)
    : M NewsResponse :=
  let query :=
    match getProperty (toLowerCase category) with
    | Some v =>
        if truthyValue v then v
        else VString (str "latest " ++ category ++ str " news today")
    | None => VString (str "latest " ++ category ++ str " news today")
    end in
  getLatestNews query limit.

End Service.


(** ** Vocabulary of the properties *)

(** An article with a non-empty title and a non-empty summary. *)
Definition wellFormed (a : NewsArticle) : Prop :=
  (exists s, title a = Some s /\ s <> []) /\
  (exists s, summary a = Some s /\ s <> []).

(** [needle] occurs in [hay]. *)
Definition includes (needle hay : jsstring) : Prop :=
  exists pre post, hay = pre ++ needle ++ post.

(** A clock for the concrete runs. *)
Definition sampleClock : nat -> jsstring :=
  fun _ => str "2024-05-01T12:00:00.000Z".

(** The outcome the specification expects for [storm_text]: two items, the
    first about the storm with its source, the second about the market with
    a publication time. *)
Definition stormExpectation (items : list NewsArticle) : Prop :=
  exists first second,
    items = [first; second]
    /\ title first = Some (str "Storm Hits City")
    /\ source first = Some (str "Local News")
    /\ (exists s, summary first = Some s /\ includes (str "Heavy rain") s)
    /\ title second = Some (str "Market Rally")
    /\ publishedAt second <> None
    /\ (exists s, summary second = Some s /\ includes (str "Stocks rose") s).

(** What the parser returns for [storm_text]. *)
Definition marketRally : NewsArticle :=
  mkArticle (Some (str "Market Rally"))
    (Some (str "Stocks rose sharply today.")) None None None.

(** The reply the natural-language provider gives to the request of
    [getNewsFromPerplexity]. *)
Definition perplexityReply (env : Env) (this : NewsService)
    (query : jsvalue) (limit : Z) : PerplexityReply :=
  perplexity_post env (perplexityApiKey this) (prompt query limit).

(** The reply the structured-data provider gives to the request of
    [getNewsFromNewsAPI]. *)
Definition newsApiReply (env : Env) (this : NewsService)
    (query : jsvalue) (limit : Z) : NewsApiReply :=
  newsapi_get env
    (mkParams query limit (str "publishedAt") (str "en") (newsApiKey this)).

(** The primary provider answers: the request succeeds and the reply has
    the shape the code reads. *)
Definition primaryAnswers (env : Env) (this : NewsService)
    (query : jsvalue) (limit : Z) : Prop :=
  exists c, perplexityReply env this query limit = PContent c.

(** The primary attempt fails: network error or malformed reply. *)
Definition primaryFails (env : Env) (this : NewsService)
    (query : jsvalue) (limit : Z) : Prop :=
  forall c, perplexityReply env this query limit <> PContent c.

(** The alternate provider answers with the articles [l]. *)
Definition alternateAnswers (env : Env) (this : NewsService)
    (query : jsvalue) (limit : Z) (l : list RawArticle) : Prop :=
  newsApiKey this <> [] /\ newsApiReply env this query limit = NArticles l.

(** The alternate attempt fails: missing credential, network error or
    malformed reply. *)
Definition alternateFails (env : Env) (this : NewsService)
    (query : jsvalue) (limit : Z) : Prop :=
  newsApiKey this = [] \/
  forall l, newsApiReply env this query limit <> NArticles l.

(** Concrete surroundings for the runs: a service with both credentials, a
    world where both providers are down, one where the primary provider
    returns two numbered stories, and one where only the alternate provider
    answers. *)
Definition sampleService : NewsService :=
  newNewsService (str "pplx-key") (Some (str "newsapi-key")).

Definition downEnv : Env :=
  mkEnv sampleClock (fun _ _ => PRejected) (fun _ => NRejected).

Definition twoStories : jsstring :=
  str "1. Alpha launches" ++ [10]
  ++ str "The first summary line is long enough." ++ [10]
  ++ str "2. Beta closes" ++ [10]
  ++ str "The second summary line is long enough.".

Definition twoStoriesEnv : Env :=
  mkEnv sampleClock (fun _ _ => PContent (Some twoStories))
    (fun _ => NRejected).

Definition sampleRaw : RawArticle :=
  mkRaw (Some (str "Rates held")) None
    (Some (str "The central bank kept its rate."))
    (Some (str "https://example.org/rates")) (Some (str "Example Wire"))
    (Some (str "2024-05-01T08:00:00Z")).

Definition alternateEnv : Env :=
  mkEnv sampleClock (fun _ _ => PRejected) (fun _ => NArticles [sampleRaw]).

(** [line] contains one of the relative-time words as a whole word, in any
    case of its letters: the occurrence is delimited by the ends of the line
    or by characters that are not word characters. *)
Definition containsRelativeTimeWord (line : jsstring) : Prop :=
  exists pre w post,
    line = pre ++ w ++ post
    /\ toLowerCase w ∈ relative_time_words
    /\ is_word_at (rev pre) = false
    /\ is_word_at post = false.

(** The item [a] was opened by a title line of [content]: its title and
    source are computed from that line alone, and it has a publication time,
    a reading of the clock not older than [t0], exactly when that line
    contains a relative-time word. *)
Definition fromTitleLine (clock : nat -> jsstring) (content : jsstring)
    (t0 : nat) (a : NewsArticle) : Prop :=
  exists raw line,
    raw ∈ contentLines content
    /\ line = trim raw
    /\ looksLikeTitle line = true
    /\ title a = Some (cleanTitle line)
    /\ source a = extractSource line
    /\ (publishedAt a <> None <-> containsRelativeTimeWord line)
    /\ (forall d, publishedAt a = Some d ->
                  exists k, (t0 <= k)%nat /\ d = clock k).

(** The invariant of the loop: the articles pushed so far and the article
    under construction were each opened by a title line. *)
Definition titleInvariant (clock : nat -> jsstring) (content : jsstring)
    (t0 : nat) (st : pstate) : Prop :=
  Forall (fromTitleLine clock content t0) (articles st)
  /\ (currentArticle st = emptyArticle
      \/ fromTitleLine clock content t0 (currentArticle st))
  /\ (t0 <= ticks st)%nat.

(** The text a literal matches at the head of [a], with what follows it;
    this is how [rmatch] runs [Lit w]. *)
Fixpoint litPrefix (ci : bool) (w a : jsstring)
    : option (jsstring * jsstring) :=
  match w with
  | [] => Some ([], a)
  | x :: w' =>
      match a with
      | y :: a' =>
          if cset_test ci (CChar x) y then
            match litPrefix ci w' a' with
            | Some (m, rest) => Some (y :: m, rest)
            | None => None
            end
          else None
      | [] => None
      end
  end.

(** A lower-case Basic Latin letter or a space: the characters of the
    relative-time words. *)
Definition lowerOrSpace (c : N) : bool := is_lower c || (c =? 32).

(** Six numbered stories, each a title line and a summary line. *)
Definition numberedStory (n : Z) : jsstring :=
  numberToString n ++ str ". Headline of the day" ++ [10]
  ++ str "This summary is longer than twenty characters." ++ [10].

Definition sixStories : jsstring :=
  concat (map numberedStory [1; 2; 3; 4; 5; 6]%Z).

(** A story whose title line carries a relative-time word and a source. *)
Definition datedStory : jsstring :=
  str "1. Markets rally Today - Reuters" ++ [10]
  ++ str "Stocks rose sharply in early trading.".

(** A text without a title line: 490 letters followed by 20 spaces. *)
Definition paddedText : jsstring := repeat 97 490 ++ repeat 32 20.

(** An article of the alternate provider with neither description nor
    content. *)
Definition bareRaw : RawArticle :=
  mkRaw (Some (str "Rates held")) None None None None None.

(** A text of white space only. *)
Definition blank (s : jsstring) : bool := forallb is_space s.

(** The publication time of [a], when set, is a reading of the clock taken
    at a tick from [t0] up to, not including, [t1]. *)
Definition datedWithin (clock : nat -> jsstring) (t0 t1 : nat)
    (a : NewsArticle) : Prop :=
  forall d, publishedAt a = Some d ->
            exists k, (t0 <= k < t1)%nat /\ d = clock k.

(** The summary of [a] is unset, empty, or longer than 20 code units. *)
Definition summaryShape (a : NewsArticle) : Prop :=
  forall s, summary a = Some s -> s = [] \/ (20 < length s)%nat.

(** No capital Basic Latin letter occurs in [s]. *)
Definition noUpper (s : jsstring) : bool :=
  forallb (fun c => negb (is_upper c)) s.

(** The first code unit of [l] satisfies [p]; an empty text has none. *)
Definition headIs (p : N -> bool) (l : list N) : bool :=
  match l with
  | c :: _ => p c
  | [] => false
  end.

(** How [rmatch] runs a greedy repetition of a character class: the longest
    run first, then shorter ones until the continuation accepts. *)
Fixpoint starRun (p : N -> bool) (k : mstate -> option mstate)
    (b a : list N) (cap : option jsstring) : option mstate :=
  match a with
  | c :: a' =>
      if p c then
        match starRun p k (c :: b) a' cap with
        | Some res => Some res
        | None => k (MState b a cap)
        end
      else k (MState b a cap)
  | [] => k (MState b [] cap)
  end.

(** The code units a class node accepts. *)
Definition classAccepts (ci inv : bool) (cs : cset) (c : N) : bool :=
  xorb inv (cset_test ci cs c).

(** The bullet glyphs of [looksLikeTitle] and [cleanTitle]. *)
Definition isBullet (c : N) : bool := cset_mem bullet_class c.

(** A line that starts with a number and a period. *)
Definition numberedLine (line : jsstring) : Prop :=
  exists d t,
    d <> [] /\ forallb is_digit d = true /\ line = d ++ 46 :: t.

(** A line that starts with a capital letter and has a colon with no period
    before it. *)
Definition labelledLine (line : jsstring) : Prop :=
  exists c u v,
    is_upper c = true
    /\ forallb (fun x => negb (x =? 46)) u = true
    /\ line = c :: u ++ 58 :: v.

(** A code unit that can open a list marker: a digit or a bullet glyph. *)
Definition markerStart (c : N) : bool := is_digit c || isBullet c.

(** A code unit other than the hyphen. *)
Definition notHyphen (c : N) : bool := negb (c =? 45).

(** A Basic Latin letter or a white-space code unit. *)
Definition letterOrSpace (c : N) : bool :=
  is_upper c || is_lower c || is_space c.

(** Every class node of [r] accepts only code units that satisfy [P]. *)
Fixpoint classesWithin (P : N -> bool) (ci : bool) (r : regex) : Prop :=
  match r with
  | Class inv cs => forall c, classAccepts ci inv cs c = true -> P c = true
  | Seq r1 r2 | Alt r1 r2 => classesWithin P ci r1 /\ classesWithin P ci r2
  | Star r' | Group r' => classesWithin P ci r'
  | Empty | Bol | Eol | WordBoundary => True
  end.

(** ** The chat handlers that call the service *)

(** The glyphs of the replies, as UTF-16 code units. *)
Definition newspaper : jsstring := [55357; 56560].
Definition magnifier : jsstring := [55357; 56589].
Definition alarmClock : jsstring := [9200].
Definition roundPin : jsstring := [55357; 56525].
Definition chainLink : jsstring := [55357; 56599].
Definition crossMark : jsstring := [10060].
Definition smilingFace : jsstring := [55357; 56842].

(** [newsCategories]: the labels the command handlers are registered for. *)
Definition newsCategories : list jsstring :=
  [str "tech"; str "business"; str "sports"; str "health"; str "science";
   str "politics"; str "world"; str "entertainment"].

(** The own properties of the object literal [categoryEmojis]. *)
Definition categoryEmojis : gmap jsstring jsstring :=
  list_to_map
    [ (str "tech", [55357; 56507]);
      (str "business", [55357; 56508]);
      (str "sports", [9917]);
      (str "health", [55356; 57317]);
      (str "science", [55357; 56620]);
      (str "politics", [55356; 57307; 65039]);
      (str "world", [55356; 57101]);
      (str "entertainment", [55356; 57260]) ].

(** [categoryEmojis[category] || newspaper], as the text the template
    literal prints. *)
Definition categoryEmoji (category : jsstring) : jsstring :=
  let found :=
    match categoryEmojis !! category with
    | Some e => Some (VString e)
    | None => objectPrototype !! category
    end in
  match found with
  | Some v => if truthyValue v then toString v else newspaper
  | None => newspaper
  end.

Definition noNewsMessage : jsstring :=
  newspaper
  ++ str " No recent news found for your query. Please try a different topic.".

Section Bot.

Variable env : Env.
Variable newsService : NewsService.

(** [new Date(timestamp).toLocaleString()], which depends on the locale and
    the time zone of the host. *)
Variable toLocaleString : jsstring -> jsstring.

(** The text one round of [articles.forEach] appends. *)
Definition formatArticle (index : nat) (article : NewsArticle) : jsstring :=
  let title :=
    if truthy (title article) then default [] (title article)
    else str "Untitled" in
  let summary :=
    if truthy (summary article) then default [] (summary article)
    else str "No summary available" in
  let source :=
    if truthy (source article) then default [] (source article) else [] in
  numberToString (Z.of_nat index + 1) ++ str ". " ++ title ++ [10]
  ++ summary ++ [10]
  ++ (if nonempty source
      then roundPin ++ str " Source: " ++ source ++ [10] else [])
  ++ (if truthy (url article)
      then chainLink ++ str " Read more: " ++ default [] (url article) ++ [10]
      else [])
  ++ [10].

(** [articles.forEach((article, index) => ...)] on the message built so
    far. *)
Fixpoint forEachArticle (index : nat) (articles : list NewsArticle)
    (formattedMessage : jsstring) : jsstring :=
  match articles with
  | [] => formattedMessage
  | article :: rest =>
      forEachArticle (S index) rest
        (formattedMessage ++ formatArticle index article)
  end.

Definition formatNewsResponse (newsResponse : NewsResponse) : jsstring :=
  if (length (r_articles newsResponse) =? 0)%nat then noNewsMessage
  else
    forEachArticle 0 (r_articles newsResponse)
      (newspaper ++ str " Latest News" ++ [10]
       ++ magnifier ++ str " Query: " ++ toString (r_query newsResponse)
       ++ [10]
       ++ alarmClock ++ str " Updated: "
       ++ toLocaleString (r_timestamp newsResponse) ++ [10; 10]).

(** A handler run: the texts passed to [bot.sendMessage], in order, and the
    clock readings made.  The chat the texts go to is the one the message
    came from. *)
Definition replies : Type := list jsstring * nat.

(** The [try] block shared by the handlers: a notice, the call of the
    service, the formatted result; the [catch] block sends an apology. *)
Definition fetchAndReply (notice apology : jsstring)
    (call : M NewsResponse) (t : nat) : replies :=
  match call t with
  | (Return newsResponse, t') =>
      ([notice; formatNewsResponse newsResponse], t')
  | (Throw _, t') => ([notice; apology], t')
  end.

(** The handler of [/news]. *)
Definition onNews (t : nat) : replies :=
  fetchAndReply (newspaper ++ str " Fetching latest news...")
    (crossMark
     ++ str " Sorry, I couldn't fetch the news right now. Please try again later.")
    (getLatestNews env newsService (VString (str "latest news today")) 5) t.

(** The handler registered for one label of [newsCategories]. *)
Definition onCategory (category : jsstring) (t : nat) : replies :=
  fetchAndReply
    (categoryEmoji category ++ str " Fetching " ++ category ++ str " news...")
    (crossMark ++ str " Sorry, I couldn't fetch " ++ category
     ++ str " news right now. Please try again later.")
    (getNewsByCategory env newsService category 5) t.

(** [`${messageText}`] for a text that may be [undefined]. *)
Definition printed (messageText : option jsstring) : jsstring :=
  match messageText with
  | Some s => s
  | None => str "undefined"
  end.

(** The handler of every message; [messageText] is [msg.text], absent for
    a message that is not a text. *)
Definition onMessage (messageText : option jsstring) (t : nat) : replies :=
  if headIs (fun c => c =? 47) (default [] messageText) then ([], t)
  else if truthy messageText && (3 <? length (default [] messageText))%nat
  then
    fetchAndReply
      (magnifier ++ str " Searching for news about " ++ quote
       ++ printed messageText ++ quote ++ str "...")
      (crossMark ++ str " Sorry, I couldn't find news about " ++ quote
       ++ printed messageText ++ quote
       ++ str ". Please try again later or use /help to see available commands.")
      (getLatestNews env newsService (VString (default [] messageText)) 3) t
  else
    ([str "You said: " ++ quote ++ printed messageText ++ quote ++ [10; 10]
      ++ str "Try sending me a topic to get news about it, or use /help to see available commands! "
      ++ smilingFace], t).

End Bot.

(** More surroundings for the runs: a world whose primary provider answers
    with white space only, and a service without the alternate
    credential. *)
Definition blankEnv : Env :=
  mkEnv sampleClock (fun _ _ => PContent (Some (str "  ")))
    (fun _ => NArticles [sampleRaw]).

Definition soloService : NewsService := newNewsService (str "pplx-key") None.

(** An article whose description is the empty string, and a world where
    only the alternate provider answers, with that article and with one that
    has neither description nor content. *)
Definition emptyDescriptionRaw : RawArticle :=
  mkRaw (Some (str "Rates held")) (Some []) (Some (str "The bank held."))
    None None None.

Definition sparseEnv : Env :=
  mkEnv sampleClock (fun _ _ => PRejected)
    (fun _ => NArticles [bareRaw; emptyDescriptionRaw]).

(** * Properties *)

(** ** Strings and slices *)

Lemma slice0_nonneg {A} (e : Z) (l : list A) :
  (0 <= e)%Z -> slice0 e l = take (Z.to_nat e) l.
Proof.
  intros He. unfold slice0.
  destruct (Z.ltb_spec e 0) as [Hlt | _]; [lia | reflexivity].
Qed.

Lemma slice0_length_le {A} (e : Z) (l : list A) :
  (0 <= e)%Z -> (length (slice0 e l) <= Z.to_nat e)%nat.
Proof.
  intros He. rewrite slice0_nonneg by exact He.
  rewrite length_take. lia.
Qed.

Lemma slice0_sublist {A} (P : A -> Prop) (e : Z) (l : list A) :
  Forall P l -> Forall P (slice0 e l).
Proof.
  intros H. unfold slice0. destruct (e <? 0)%Z; apply Forall_take, H.
Qed.

Lemma nonempty_true (s : jsstring) : nonempty s = true <-> s <> [].
Proof. destruct s; simpl; split; intros; congruence. Qed.

Lemma truthy_true (field : option jsstring) :
  truthy field = true <-> exists s, field = Some s /\ s <> [].
Proof.
  destruct field as [s|]; simpl.
  - rewrite nonempty_true. split.
    + intros H. exists s. auto.
    + intros (s' & [= <-] & H). exact H.
  - split; [discriminate | intros (s & [=] & _)].
Qed.

(** ** The loop of the parser *)

Section ParserFacts.

Variable clock : nat -> jsstring.

(** A property of the loop state that every round keeps holds when the
    loop ends. *)
Lemma foldl_parseLine_invariant (I : pstate -> Prop) (lines : list jsstring) :
  (forall st line, line ∈ lines -> I st -> I (parseLine clock st line)) ->
  forall st, I st -> I (foldl (parseLine clock) st lines).
Proof.
  induction lines as [|line lines IH]; intros Hstep st Hst; simpl.
  - exact Hst.
  - apply IH.
    + intros st' line' Hin. apply Hstep. now right.
    + apply Hstep; [now left | exact Hst].
Qed.

(** What [parseLine] does, by cases on the classification of the line. *)
Lemma parseLine_cases (st : pstate) (line : jsstring) :
  let t := trim line in
  (nonempty t = false /\ parseLine clock st line = st)
  \/ (nonempty t = true /\ looksLikeTitle t = true
      /\ parseLine clock st line =
         PState (pushCurrent st)
           (mkArticle (Some (cleanTitle t)) (Some []) None (extractSource t)
              (fst (extractDate clock t (ticks st))))
           (snd (extractDate clock t (ticks st))))
  \/ (nonempty t = true /\ looksLikeTitle t = false
      /\ truthy (title (currentArticle st)) = true /\ (20 < length t)%nat
      /\ exists text, text <> [] /\
         parseLine clock st line =
         PState (articles st)
           (mkArticle (title (currentArticle st)) (Some text)
              (url (currentArticle st)) (source (currentArticle st))
              (publishedAt (currentArticle st)))
           (ticks st))
  \/ (nonempty t = true /\ looksLikeTitle t = false
      /\ (truthy (title (currentArticle st)) = false \/ (length t <= 20)%nat)
      /\ parseLine clock st line = st).
Proof.
  intros t. unfold parseLine. fold t.
  destruct (nonempty t) eqn:Hne; simpl; [|left; auto].
  right. destruct (looksLikeTitle t) eqn:Htitle.
  - left. repeat split. destruct (extractDate clock t (ticks st)); reflexivity.
  - right.
    destruct (truthy (title (currentArticle st))) eqn:Hcur; simpl.
    + destruct (Nat.ltb_spec 20 (length t)) as [Hlen | Hlen].
      * left. repeat split; try assumption.
        destruct (truthy (summary (currentArticle st))) eqn:Hsum; simpl.
        -- eexists. split; [|reflexivity].
           intros Heq. apply app_eq_nil in Heq as [_ Heq]. discriminate.
        -- exists t. split; [|reflexivity].
           now apply nonempty_true.
      * right. repeat split; auto.
    + right. repeat split; auto.
Qed.

End ParserFacts.

Section ParserTheorems.

Variable clock : nat -> jsstring.

(** The three ways [parseNewsResponse] ends: the scanned articles capped at
    five, the single fallback article, or nothing. *)
Lemma parseNewsResponse_cases (content : jsstring) (t0 : nat) :
  let st := scanLines clock content t0 in
  let found := scannedArticles clock content t0 in
  (found <> [] /\
   parseNewsResponse clock content t0 = (slice0 5 found, ticks st))
  \/ (found = [] /\ nonempty (trim content) = true /\
      parseNewsResponse clock content t0 =
      ([fallbackArticle content (clock (ticks st))], S (ticks st)))
  \/ (found = [] /\ nonempty (trim content) = false /\
      parseNewsResponse clock content t0 = ([], ticks st)).
Proof.
  intros st found. unfold parseNewsResponse. fold st.
  change (pushCurrent st) with found.
  destruct found as [|a found'] eqn:Hfound.
  - right. destruct (nonempty (trim content)); [left | right]; auto.
  - left. split; [discriminate | reflexivity].
Qed.

Lemma pushCurrent_wellFormed (st : pstate) :
  Forall wellFormed (articles st) -> Forall wellFormed (pushCurrent st).
Proof.
  intros H. unfold pushCurrent.
  destruct (truthy (title (currentArticle st))) eqn:Ht; simpl; [|exact H].
  destruct (truthy (summary (currentArticle st))) eqn:Hs; simpl; [|exact H].
  apply Forall_app. split; [exact H|].
  constructor; [|constructor].
  split; now apply truthy_true.
Qed.

Lemma parseLine_wellFormed (st : pstate) (line : jsstring) :
  Forall wellFormed (articles st) ->
  Forall wellFormed (articles (parseLine clock st line)).
Proof.
  intros H.
  destruct (parseLine_cases clock st line)
    as [[_ ->] | [(_ & _ & ->) | [(_ & _ & _ & _ & text & _ & ->) | (_ & _ & _ & ->)]]];
    simpl; auto using pushCurrent_wellFormed.
Qed.

Lemma scannedArticles_wellFormed (content : jsstring) (t0 : nat) :
  Forall wellFormed (scannedArticles clock content t0).
Proof.
  unfold scannedArticles, scanLines. apply pushCurrent_wellFormed.
  apply (foldl_parseLine_invariant clock
           (fun st => Forall wellFormed (articles st))).
  - intros st line _. apply parseLine_wellFormed.
  - constructor.
Qed.

Lemma fallbackArticle_wellFormed (content now : jsstring) :
  nonempty (trim content) = true -> wellFormed (fallbackArticle content now).
Proof.
  intros Hne. split; simpl.
  - eexists. split; [reflexivity | discriminate].
  - eexists. split; [reflexivity|].
    unfold substring0. destruct (trim content); [discriminate|].
    simpl. discriminate.
Qed.

(** The cap of the last line of [parseNewsResponse]. *)
Lemma parseNewsResponse_capped (content : jsstring) (t0 : nat) :
  (length (parseNewsResponse clock content t0).1 <= 5)%nat.
Proof.
  destruct (parseNewsResponse_cases content t0)
    as [(_ & ->) | [(_ & _ & ->) | (_ & _ & ->)]]; simpl; try lia.
  apply (slice0_length_le 5). lia.
Qed.

(** C5: for every input text, the sequence of items returned by
    [parseNewsResponse] has at most five items, whatever limit the caller
    asked for (the parser does not receive it) and however many lines look
    like titles. *)
Theorem parseNewsResponse_at_most_five (content : jsstring) (t0 : nat) :
  (length (fst (parseNewsResponse clock content t0)) <= 5)%nat.
Proof. exact (parseNewsResponse_capped content t0). Qed.

(** C9: for every input text, every item returned by [parseNewsResponse]
    has a title that is a non-empty string and a summary that is a
    non-empty string. *)
Theorem parseNewsResponse_titles_nonempty (content : jsstring) (t0 : nat) :
  Forall (fun a =>
            (exists s, title a = Some s /\ s <> []) /\
            (exists s, summary a = Some s /\ s <> []))
    (fst (parseNewsResponse clock content t0)).
Proof.
  change (Forall wellFormed (fst (parseNewsResponse clock content t0))).
  destruct (parseNewsResponse_cases content t0)
    as [(_ & ->) | [(_ & Hne & ->) | (_ & _ & ->)]]; simpl.
  - apply slice0_sublist, scannedArticles_wellFormed.
  - constructor; [|constructor]. now apply fallbackArticle_wellFormed.
  - constructor.
Qed.

End ParserTheorems.

(** ** The fallback article and the worked example *)

Lemma trimStart_length (s : jsstring) : (length (trimStart s) <= length s)%nat.
Proof.
  induction s as [|c s IH]; simpl; [lia|].
  destruct (is_space c); simpl; lia.
Qed.

Lemma trim_length (s : jsstring) : (length (trim s) <= length s)%nat.
Proof.
  unfold trim, trimEnd. rewrite length_rev.
  etransitivity; [apply trimStart_length|].
  rewrite length_rev. apply trimStart_length.
Qed.

Section Fallback.

Variable clock : nat -> jsstring.

(** Without a title line the loop leaves its variables as they were. *)
Lemma scanLines_no_title (content : jsstring) (t0 : nat) :
  Forall (fun line => looksLikeTitle (trim line) = false)
    (contentLines content) ->
  scanLines clock content t0 = PState [] emptyArticle t0.
Proof.
  intros Hnone. unfold scanLines.
  apply (foldl_parseLine_invariant clock
           (fun st => st = PState [] emptyArticle t0)); [|reflexivity].
  intros st line Hin ->.
  rewrite Forall_forall in Hnone. specialize (Hnone line Hin).
  destruct (parseLine_cases clock (PState [] emptyArticle t0) line)
    as [[_ ->] | [(_ & Ht & _) | [(_ & _ & Hcur & _) | (_ & _ & _ & ->)]]];
    try reflexivity.
  - simpl in Ht. congruence.
  - simpl in Hcur. discriminate.
Qed.

(** C6, as the code has it: for every input text that is not empty once
    trimmed and in which no line satisfies a title heuristic,
    [parseNewsResponse] returns exactly one item, titled
    [Latest News Summary] and dated with the current clock reading.  Its
    summary starts with the first 500 characters of the trimmed input; it is
    the whole trimmed input when the input has at most 500 characters, and
    the first 500 characters of the trimmed input followed by the marker
    [...] when the trimmed input has more than 500 characters. *)
Theorem parseNewsResponse_fallback (content : jsstring) (t0 : nat) :
  nonempty (trim content) = true ->
  Forall (fun line => looksLikeTitle (trim line) = false)
    (contentLines content) ->
  exists item body,
    parseNewsResponse clock content t0 = ([item], S t0)
    /\ title item = Some (str "Latest News Summary")
    /\ publishedAt item = Some (clock t0)
    /\ summary item = Some body
    /\ take 500 (trim content) `prefix_of` body
    /\ ((length content <= 500)%nat -> body = trim content)
    /\ ((500 < length (trim content))%nat ->
        body = take 500 (trim content) ++ str "...").
Proof.
  intros Hne Hnone.
  pose proof (scanLines_no_title content t0 Hnone) as Hscan.
  destruct (parseNewsResponse_cases clock content t0)
    as [(Hfound & _) | [(_ & _ & Hparse) | (_ & Hempty & _)]].
  - exfalso. apply Hfound. unfold scannedArticles. rewrite Hscan. reflexivity.
  - rewrite Hscan in Hparse. simpl in Hparse.
    eexists. eexists. split; [exact Hparse|].
    split; [reflexivity|]. split; [reflexivity|]. split; [reflexivity|].
    pose proof (trim_length content) as Hlen.
    unfold substring0. split; [|split].
    + eexists. reflexivity.
    + intros Hshort.
      destruct (Nat.ltb_spec 500 (length content)) as [Hlt | _]; [lia|].
      rewrite app_nil_r. apply take_ge. lia.
    + intros Hlong.
      destruct (Nat.ltb_spec 500 (length content)) as [_ | Hle]; [|lia].
      reflexivity.
  - congruence.
Qed.

End Fallback.

(** The theorem applied to a short text without a title line. *)
Lemma parseNewsResponse_fallback_witness :
  exists item body,
    parseNewsResponse sampleClock (str "rain is expected") 0 = ([item], 1%nat)
    /\ title item = Some (str "Latest News Summary")
    /\ publishedAt item = Some (sampleClock 0%nat)
    /\ summary item = Some body
    /\ take 500 (trim (str "rain is expected")) `prefix_of` body
    /\ ((length (str "rain is expected") <= 500)%nat ->
        body = trim (str "rain is expected"))
    /\ ((500 < length (trim (str "rain is expected")))%nat ->
        body = take 500 (trim (str "rain is expected")) ++ str "...").
Proof.
  apply (parseNewsResponse_fallback sampleClock (str "rain is expected") 0).
  - vm_compute. reflexivity.
  - vm_compute. repeat constructor.
Defined.

(** C6, as stated, fails at two inputs without a title line.  A text of one
    space is not empty, yet the parser returns no item at all; and for a
    text that starts with a space the summary of the fallback item is the
    trimmed text, which is not a prefix of the input. *)
Lemma parseNewsResponse_fallback_counterexample :
  (str " " <> []
   /\ Forall (fun line => looksLikeTitle (trim line) = false)
        (contentLines (str " "))
   /\ fst (parseNewsResponse sampleClock (str " ") 0) = [])
  /\ (Forall (fun line => looksLikeTitle (trim line) = false)
        (contentLines (str " rain is expected"))
      /\ exists item,
           fst (parseNewsResponse sampleClock (str " rain is expected") 0)
           = [item]
           /\ summary item = Some (str "rain is expected")
           /\ ~ str "rain is expected" `prefix_of` str " rain is expected").
Proof.
  split.
  - split; [discriminate|]. split; [vm_compute; constructor | reflexivity].
  - split; [vm_compute; repeat constructor|].
    eexists. split; [vm_compute; reflexivity|].
    split; [reflexivity|].
    intros [rest Heq]. vm_compute in Heq. discriminate.
Qed.

(** C4, as the code has it: parsing [storm_text] yields exactly one item,
    titled [Market Rally], with summary [Stocks rose sharply today.] and
    with neither source nor publication time.  The second line is short,
    starts with a capital and does not end in a period, so it opens an
    article of its own and the storm article is dropped without a summary;
    the word [today] stands in a summary line, which [extractDate] never
    sees. *)
Theorem parseNewsResponse_storm (clock : nat -> jsstring) (t0 : nat) :
  parseNewsResponse clock storm_text t0 = ([marketRally], t0).
Proof. vm_compute. reflexivity. Qed.

(** C4, as stated, fails: the parser does not return the two expected
    items for [storm_text]. *)
Lemma parseNewsResponse_storm_counterexample :
  ~ stormExpectation (fst (parseNewsResponse sampleClock storm_text 0)).
Proof.
  intros (first & second & Hitems & _).
  vm_compute in Hitems. discriminate.
Qed.

(** ** The provider attempts *)

Section ServiceFacts.

Variable env : Env.
Variable this : NewsService.

Lemma getNewsFromPerplexity_answer (query : jsvalue) (limit : Z) (t : nat)
    (c : option jsstring) :
  perplexityReply env this query limit = PContent c ->
  let content := if truthy c then default [] c else [] in
  let parsed := parseNewsResponse (clock env) content t in
  getNewsFromPerplexity env this query limit t =
  (Return (mkResponse (fst parsed) query (clock env (snd parsed))),
   S (snd parsed)).
Proof.
  intros Hreply content parsed. unfold perplexityReply in Hreply.
  unfold getNewsFromPerplexity, try_catch, bind, ret, now, parseContent.
  rewrite Hreply. fold content. fold parsed.
  destruct parsed as [l t']. reflexivity.
Qed.

Lemma getNewsFromPerplexity_failure (query : jsvalue) (limit : Z) (t : nat) :
  primaryFails env this query limit ->
  exists e, getNewsFromPerplexity env this query limit t = (Throw e, t).
Proof.
  unfold primaryFails, perplexityReply. intros Hfail.
  unfold getNewsFromPerplexity, try_catch, bind, throw.
  destruct (perplexity_post env (perplexityApiKey this) (prompt query limit))
    as [| |c|] eqn:Hreply; try (eexists; reflexivity).
  exfalso. exact (Hfail c eq_refl).
Qed.

Lemma getNewsFromNewsAPI_answer (query : jsvalue) (limit : Z) (t : nat)
    (l : list RawArticle) :
  alternateAnswers env this query limit l ->
  getNewsFromNewsAPI env this query limit t =
  (Return (mkResponse (map mapArticle l) query (clock env t)), S t).
Proof.
  unfold alternateAnswers, newsApiReply. intros [Hkey Hreply].
  unfold getNewsFromNewsAPI.
  apply nonempty_true in Hkey. rewrite Hkey. simpl.
  unfold bind, ret, now. rewrite Hreply. reflexivity.
Qed.

Lemma getNewsFromNewsAPI_failure (query : jsvalue) (limit : Z) (t : nat) :
  alternateFails env this query limit ->
  exists e, getNewsFromNewsAPI env this query limit t = (Throw e, t).
Proof.
  unfold alternateFails, newsApiReply. intros Hfail.
  unfold getNewsFromNewsAPI.
  destruct (nonempty (newsApiKey this)) eqn:Hkey; simpl.
  - destruct Hfail as [Hnil | Hfail].
    + rewrite Hnil in Hkey. discriminate.
    + unfold bind, throw.
      destruct (newsapi_get env _) as [| |l] eqn:Hreply;
        try (eexists; reflexivity).
      exfalso. exact (Hfail l eq_refl).
  - eexists. reflexivity.
Qed.

(** The placeholder path: three clock readings, the two advisory articles
    cut at [limit]. *)
Lemma getMockNews_result (query : jsvalue) (limit : Z) (t : nat) :
  exists first second,
    getMockNews env query limit t =
    (Return (mkResponse (slice0 limit [first; second]) query
               (clock env (S (S t)))), S (S (S t)))
    /\ source first = Some (str "News AI Bot")
    /\ publishedAt first = Some (clock env t)
    /\ source second = Some (str "System")
    /\ publishedAt second = Some (clock env (S t)).
Proof.
  unfold getMockNews, bind, now, ret. cbv beta iota zeta.
  eexists. eexists. split; [reflexivity|]. repeat split.
Qed.

(** Each provider either answers or fails. *)
Lemma primary_answers_or_fails (query : jsvalue) (limit : Z) :
  primaryAnswers env this query limit \/ primaryFails env this query limit.
Proof.
  unfold primaryAnswers, primaryFails.
  destruct (perplexityReply env this query limit) as [| |c|];
    try (right; discriminate).
  left. exists c. reflexivity.
Qed.

Lemma alternate_answers_or_fails (query : jsvalue) (limit : Z) :
  (exists l, alternateAnswers env this query limit l)
  \/ alternateFails env this query limit.
Proof.
  unfold alternateAnswers, alternateFails.
  destruct (newsApiKey this) as [|k key]; [right; left; reflexivity|].
  destruct (newsApiReply env this query limit) as [| |l];
    try (right; right; discriminate).
  left. exists l. split; [discriminate | reflexivity].
Qed.

(** The three ways [getLatestNews] ends. *)
Lemma getLatestNews_primary (query : jsvalue) (limit : Z) (t : nat)
    (c : option jsstring) :
  perplexityReply env this query limit = PContent c ->
  getLatestNews env this query limit t =
  getNewsFromPerplexity env this query limit t.
Proof.
  intros Hreply. unfold getLatestNews at 1, try_catch at 1.
  rewrite (getNewsFromPerplexity_answer query limit t c Hreply). reflexivity.
Qed.

Lemma getLatestNews_alternate (query : jsvalue) (limit : Z) (t : nat)
    (l : list RawArticle) :
  primaryFails env this query limit ->
  alternateAnswers env this query limit l ->
  getLatestNews env this query limit t =
  (Return (mkResponse (map mapArticle l) query (clock env t)), S t).
Proof.
  intros Hp Ha. unfold getLatestNews, try_catch.
  destruct (getNewsFromPerplexity_failure query limit t Hp) as [e ->].
  rewrite (getNewsFromNewsAPI_answer query limit t l Ha). reflexivity.
Qed.

Lemma getLatestNews_mock (query : jsvalue) (limit : Z) (t : nat) :
  primaryFails env this query limit ->
  alternateFails env this query limit ->
  getLatestNews env this query limit t = getMockNews env query limit t.
Proof.
  intros Hp Ha. unfold getLatestNews, try_catch.
  destruct (getNewsFromPerplexity_failure query limit t Hp) as [e ->].
  destruct (getNewsFromNewsAPI_failure query limit t Ha) as [e' ->].
  reflexivity.
Qed.

End ServiceFacts.

(** ** The fallback chain *)

Section ServiceTheorems.

Variable env : Env.
Variable this : NewsService.

(** [getLatestNews] returns on every path, with the query it was given and
    a reading of the clock as time stamp. *)
Lemma getLatestNews_returns (query : jsvalue) (limit : Z) (t : nat) :
  exists r t',
    getLatestNews env this query limit t = (Return r, t')
    /\ r_query r = query
    /\ exists k, r_timestamp r = clock env k.
Proof.
  destruct (primary_answers_or_fails env this query limit) as [[c Hc] | Hp].
  - rewrite (getLatestNews_primary env this query limit t c Hc).
    rewrite (getNewsFromPerplexity_answer env this query limit t c Hc).
    eexists. eexists. split; [reflexivity|]. split; [reflexivity|].
    eexists. reflexivity.
  - destruct (alternate_answers_or_fails env this query limit)
      as [[l Hl] | Ha].
    + rewrite (getLatestNews_alternate env this query limit t l Hp Hl).
      eexists. eexists. split; [reflexivity|]. split; [reflexivity|].
      eexists. reflexivity.
    + rewrite (getLatestNews_mock env this query limit t Hp Ha).
      destruct (getMockNews_result env query limit t)
        as (a & b & -> & _).
      eexists. eexists. split; [reflexivity|]. split; [reflexivity|].
      eexists. reflexivity.
Qed.

Lemma primary_answers_not_fails (query : jsvalue) (limit : Z) :
  primaryAnswers env this query limit ->
  primaryFails env this query limit -> False.
Proof. intros [c Hc] Hfail. exact (Hfail c Hc). Qed.

Lemma alternate_answers_not_fails (query : jsvalue) (limit : Z)
    (l : list RawArticle) :
  alternateAnswers env this query limit l ->
  alternateFails env this query limit -> False.
Proof.
  intros [Hkey Hl] [Hnil | Hfail]; [contradiction | exact (Hfail l Hl)].
Qed.

Lemma mock_slice_length {A} (limit : Z) (a b : A) :
  (1 <= limit)%Z ->
  length (slice0 limit [a; b]) = Z.to_nat (Z.min limit 2).
Proof.
  intros Hlimit. rewrite slice0_nonneg by lia.
  rewrite length_take. simpl. lia.
Qed.

(** C1, as the code has it: for every query, every limit of at least 1 and
    every outcome of the two providers, [getLatestNews] returns a result.
    When the primary provider answers the result has at most 5 items (the
    cap of the parser, whatever the limit); when the alternate provider is
    the one that answers it has as many items as the reply has articles;
    when both fail it has [min(limit, 2)] items, which is at most the
    limit. *)
Theorem getLatestNews_length (query : jsvalue) (limit : Z) (t : nat) :
  (1 <= limit)%Z ->
  exists r t',
    getLatestNews env this query limit t = (Return r, t')
    /\ (primaryAnswers env this query limit ->
        (length (r_articles r) <= 5)%nat)
    /\ (primaryFails env this query limit ->
        forall l, alternateAnswers env this query limit l ->
                  length (r_articles r) = length l)
    /\ (primaryFails env this query limit ->
        alternateFails env this query limit ->
        length (r_articles r) = Z.to_nat (Z.min limit 2)
        /\ (length (r_articles r) <= Z.to_nat limit)%nat).
Proof.
  intros Hlimit.
  destruct (primary_answers_or_fails env this query limit) as [Hans | Hp].
  - pose proof Hans as [c Hc].
    rewrite (getLatestNews_primary env this query limit t c Hc).
    rewrite (getNewsFromPerplexity_answer env this query limit t c Hc).
    eexists. eexists. split; [reflexivity|]. simpl.
    split; [|split].
    + intros _. apply parseNewsResponse_capped.
    + intros Hp. destruct (primary_answers_not_fails query limit Hans Hp).
    + intros Hp. destruct (primary_answers_not_fails query limit Hans Hp).
  - destruct (alternate_answers_or_fails env this query limit)
      as [[l Hl] | Ha].
    + rewrite (getLatestNews_alternate env this query limit t l Hp Hl).
      eexists. eexists. split; [reflexivity|]. simpl.
      split; [|split].
      * intros Hans. destruct (primary_answers_not_fails query limit Hans Hp).
      * intros _ l' [_ Hl']. destruct Hl as [_ Hl].
        rewrite Hl in Hl'. injection Hl' as <-. apply length_map.
      * intros _ Ha. destruct (alternate_answers_not_fails query limit l Hl Ha).
    + rewrite (getLatestNews_mock env this query limit t Hp Ha).
      destruct (getMockNews_result env query limit t) as (a & b & -> & _).
      eexists. eexists. split; [reflexivity|]. simpl.
      split; [|split].
      * intros Hans. destruct (primary_answers_not_fails query limit Hans Hp).
      * intros _ l Hl. destruct (alternate_answers_not_fails query limit l Hl Ha).
      * intros _ _. rewrite (mock_slice_length limit a b Hlimit). lia.
Qed.

End ServiceTheorems.

Section FallbackTheorems.

Variable env : Env.
Variable this : NewsService.

(** C2: for every query and limit, if both provider attempts fail (the
    primary by a network error or a malformed reply, the alternate by a
    missing credential, a network error or a malformed reply),
    [getLatestNews] does not raise: it returns a result that echoes the
    query and carries a reading of the clock as time stamp. *)
Theorem getLatestNews_never_raises (query : jsvalue) (limit : Z) (t : nat) :
  primaryFails env this query limit ->
  alternateFails env this query limit ->
  exists r t',
    getLatestNews env this query limit t = (Return r, t')
    /\ r_query r = query
    /\ exists k, r_timestamp r = clock env k.
Proof.
  intros Hp Ha.
  rewrite (getLatestNews_mock env this query limit t Hp Ha).
  destruct (getMockNews_result env query limit t) as (a & b & -> & _).
  eexists. eexists. split; [reflexivity|]. split; [reflexivity|].
  eexists. reflexivity.
Qed.

(** C3: for every query and every limit of at least 1, when both provider
    attempts fail, [getLatestNews] returns exactly [min(limit, 2)] items,
    each with source [System] or [News AI Bot] and with a reading of the
    clock taken during the call as [publishedAt]. *)
Theorem getLatestNews_placeholder (query : jsvalue) (limit : Z) (t : nat) :
  (1 <= limit)%Z ->
  primaryFails env this query limit ->
  alternateFails env this query limit ->
  exists r t',
    getLatestNews env this query limit t = (Return r, t')
    /\ length (r_articles r) = Z.to_nat (Z.min limit 2)
    /\ Forall (fun a =>
                 (source a = Some (str "System")
                  \/ source a = Some (str "News AI Bot"))
                 /\ exists k, (t <= k < t')%nat
                              /\ publishedAt a = Some (clock env k))
         (r_articles r).
Proof.
  intros Hlimit Hp Ha.
  rewrite (getLatestNews_mock env this query limit t Hp Ha).
  destruct (getMockNews_result env query limit t)
    as (a & b & -> & Hsa & Hpa & Hsb & Hpb).
  eexists. eexists. split; [reflexivity|]. simpl.
  split; [exact (mock_slice_length limit a b Hlimit)|].
  apply slice0_sublist. constructor; [|constructor; [|constructor]].
  - split; [right; exact Hsa|]. exists t. split; [lia | exact Hpa].
  - split; [left; exact Hsb|]. exists (S t). split; [lia | exact Hpb].
Qed.

(** C8, as the code has it: when the alternate provider is the one that
    answers, every article of its reply becomes one item, in order: title,
    url, source name and publication time are copied; the summary is the
    description when that is a non-empty string, and, when the description
    is missing or empty and the article has a content, the first 200
    characters of the content followed by the marker [...].  An article
    with neither description nor content is left out of the statement. *)
Theorem getLatestNews_alternate_mapping (query : jsvalue) (limit : Z)
    (t : nat) (l : list RawArticle) :
  primaryFails env this query limit ->
  alternateAnswers env this query limit l ->
  exists r t',
    getLatestNews env this query limit t = (Return r, t')
    /\ length (r_articles r) = length l
    /\ forall i raw, l !! i = Some raw ->
         exists item,
           r_articles r !! i = Some item
           /\ title item = r_title raw
           /\ url item = r_url raw
           /\ source item = r_source raw
           /\ publishedAt item = r_publishedAt raw
           /\ (forall d, r_description raw = Some d -> d <> [] ->
                         summary item = Some d)
           /\ (truthy (r_description raw) = false ->
               forall c, r_content raw = Some c ->
                         summary item = Some (take 200 c ++ str "...")).
Proof.
  intros Hp Hl.
  rewrite (getLatestNews_alternate env this query limit t l Hp Hl).
  eexists. eexists. split; [reflexivity|]. simpl.
  split; [apply length_map|].
  intros i raw Hi. exists (mapArticle raw).
  split; [rewrite list_lookup_fmap, Hi; reflexivity|].
  unfold mapArticle. simpl. repeat split.
  - intros d Hd Hne. rewrite Hd. simpl.
    apply nonempty_true in Hne. rewrite Hne. reflexivity.
  - intros Hfalsy c Hc. rewrite Hfalsy, Hc. reflexivity.
Qed.

(** C7 at the label [constructor]: the property read of the table finds the
    inherited [Object.prototype.constructor], a truthy function object, so
    the generic template is not used and [getLatestNews] is called with the
    function [Object] as its query; the result carries that function, not
    the query [latest constructor news today]. *)
Theorem getNewsByCategory_constructor (limit : Z) (t : nat) :
  exists r t',
    getNewsByCategory env this (str "constructor") limit t = (Return r, t')
    /\ r_query r = VFunction (str "Object")
    /\ r_query r <> VString (str "latest constructor news today").
Proof.
  unfold getNewsByCategory.
  replace (getProperty (toLowerCase (str "constructor")))
    with (Some (VFunction (str "Object"))) by (vm_compute; reflexivity).
  cbv beta iota zeta delta [truthyValue].
  destruct (getLatestNews_returns env this (VFunction (str "Object")) limit t)
    as (r & t' & Hrun & Hq & _).
  exists r, t'. split; [exact Hrun|]. split; [exact Hq|].
  rewrite Hq. discriminate.
Qed.

(** A known label, in any case of its letters, is mapped to the template
    of the table. *)
Lemma getNewsByCategory_known (category q : jsstring) (limit : Z) :
  categoryQueries !! toLowerCase category = Some q ->
  q <> [] ->
  getNewsByCategory env this category limit =
  getLatestNews env this (VString q) limit.
Proof.
  intros Hq Hne. unfold getNewsByCategory, getProperty. rewrite Hq. simpl.
  apply nonempty_true in Hne. rewrite Hne. reflexivity.
Qed.

(** A label that names no property of the table, own or inherited, is
    mapped to the generic template. *)
Lemma getNewsByCategory_generic (category : jsstring) (limit : Z) :
  getProperty (toLowerCase category) = None ->
  getNewsByCategory env this category limit =
  getLatestNews env this
    (VString (str "latest " ++ category ++ str " news today")) limit.
Proof.
  intros Hnone. unfold getNewsByCategory. rewrite Hnone. reflexivity.
Qed.

(** [getNewsByCategory] never raises. *)
Lemma getNewsByCategory_returns (category : jsstring) (limit : Z) (t : nat) :
  exists r t', getNewsByCategory env this category limit t = (Return r, t').
Proof.
  unfold getNewsByCategory.
  match goal with
  | |- context [getLatestNews env this ?q limit t] =>
      destruct (getLatestNews_returns env this q limit t)
        as (r & t' & Hrun & _)
  end.
  exists r, t'. exact Hrun.
Qed.

End FallbackTheorems.

(** The label [Sports] is found in the table. *)
Example getNewsByCategory_sports (env : Env) (this : NewsService) (limit : Z) :
  getNewsByCategory env this (str "Sports") limit =
  getLatestNews env this (VString (str "latest sports news today")) limit.
Proof.
  apply getNewsByCategory_known; [vm_compute; reflexivity | discriminate].
Qed.

(** The label [tech], which the bot passes, is not in the table. *)
Example getNewsByCategory_tech (env : Env) (this : NewsService) (limit : Z) :
  getNewsByCategory env this (str "tech") limit =
  getLatestNews env this (VString (str "latest tech news today")) limit.
Proof.
  apply (getNewsByCategory_generic env this (str "tech")).
  vm_compute. reflexivity.
Qed.

(** C1, as stated, fails: with limit 1 and a primary provider that answers
    with two numbered stories, the result has two items. *)
Lemma getLatestNews_length_counterexample :
  exists r t',
    getLatestNews twoStoriesEnv sampleService (VString (str "news")) 1 0%nat
    = (Return r, t')
    /\ length (r_articles r) = 2%nat
    /\ ~ (length (r_articles r) <= Z.to_nat 1)%nat.
Proof.
  eexists. eexists. split; [vm_compute; reflexivity|].
  split; [reflexivity|]. simpl. lia.
Qed.

Lemma getLatestNews_length_witness :
  exists r t',
    getLatestNews twoStoriesEnv sampleService (VString (str "news")) 5 0%nat
    = (Return r, t')
    /\ (primaryAnswers twoStoriesEnv sampleService (VString (str "news")) 5 ->
        (length (r_articles r) <= 5)%nat)
    /\ (primaryFails twoStoriesEnv sampleService (VString (str "news")) 5 ->
        forall l,
          alternateAnswers twoStoriesEnv sampleService
            (VString (str "news")) 5 l ->
          length (r_articles r) = length l)
    /\ (primaryFails twoStoriesEnv sampleService (VString (str "news")) 5 ->
        alternateFails twoStoriesEnv sampleService (VString (str "news")) 5 ->
        length (r_articles r) = Z.to_nat (Z.min 5 2)
        /\ (length (r_articles r) <= Z.to_nat 5)%nat).
Proof.
  apply (getLatestNews_length twoStoriesEnv sampleService
           (VString (str "news")) 5 0%nat).
  lia.
Defined.

Lemma getLatestNews_never_raises_witness :
  exists r t',
    getLatestNews downEnv sampleService (VString (str "news")) 1 0%nat
    = (Return r, t')
    /\ r_query r = VString (str "news")
    /\ exists k, r_timestamp r = clock downEnv k.
Proof.
  apply (getLatestNews_never_raises downEnv sampleService
           (VString (str "news")) 1 0%nat).
  - intros c. discriminate.
  - right. intros l. discriminate.
Defined.

Lemma getLatestNews_placeholder_witness :
  exists r t',
    getLatestNews downEnv sampleService (VString (str "news")) 1 0%nat
    = (Return r, t')
    /\ length (r_articles r) = Z.to_nat (Z.min 1 2)
    /\ Forall (fun a =>
                 (source a = Some (str "System")
                  \/ source a = Some (str "News AI Bot"))
                 /\ exists k, (0 <= k < t')%nat
                              /\ publishedAt a = Some (clock downEnv k))
         (r_articles r).
Proof.
  apply (getLatestNews_placeholder downEnv sampleService
           (VString (str "news")) 1 0%nat).
  - lia.
  - intros c. discriminate.
  - right. intros l. discriminate.
Defined.

Lemma getLatestNews_alternate_mapping_witness :
  exists r t',
    getLatestNews alternateEnv sampleService (VString (str "rates")) 3 0%nat
    = (Return r, t')
    /\ length (r_articles r) = length [sampleRaw]
    /\ forall i raw, [sampleRaw] !! i = Some raw ->
         exists item,
           r_articles r !! i = Some item
           /\ title item = r_title raw
           /\ url item = r_url raw
           /\ source item = r_source raw
           /\ publishedAt item = r_publishedAt raw
           /\ (forall d, r_description raw = Some d -> d <> [] ->
                         summary item = Some d)
           /\ (truthy (r_description raw) = false ->
               forall c, r_content raw = Some c ->
                         summary item = Some (take 200 c ++ str "...")).
Proof.
  apply (getLatestNews_alternate_mapping alternateEnv sampleService
           (VString (str "rates")) 3 0%nat [sampleRaw]).
  - intros c. discriminate.
  - split; [discriminate | reflexivity].
Defined.

(** C8, as stated, fails at two articles of an alternate reply.  For an
    article with neither description nor content the summary is the text
    [undefined...], which comes from no field of the article; and for an
    article whose description is the empty string the summary is not that
    description but the content followed by the marker. *)
Lemma getLatestNews_alternate_mapping_counterexample :
  exists r t' first second,
    getLatestNews sparseEnv sampleService (VString (str "rates")) 3 0%nat
    = (Return r, t')
    /\ r_articles r = [first; second]
    /\ (r_description bareRaw = None /\ r_content bareRaw = None
        /\ summary first = Some (str "undefined..."))
    /\ (r_description emptyDescriptionRaw = Some []
        /\ summary second = Some (str "The bank held....")
        /\ summary second <> r_description emptyDescriptionRaw).
Proof.
  eexists. eexists. eexists. eexists.
  split; [reflexivity|]. split; [reflexivity|].
  split; [repeat split|]. split; [reflexivity|].
  split; [reflexivity | discriminate].
Qed.

(** ** The matcher on the relative-time pattern *)

Lemma search_is_Some (ci : bool) (r : regex) (s passed : jsstring) :
  is_Some (search ci r passed s) <->
  exists pre suf,
    s = pre ++ suf
    /\ is_Some (rmatch ci r Some (MState (rev pre ++ passed) suf None)).
Proof.
  revert passed. induction s as [|c s IH]; intros passed; simpl.
  - destruct (rmatch ci r Some (MState passed [] None)) as [st|] eqn:Hm.
    + split; [|intros _; eauto].
      intros _. exists [], []. simpl. rewrite Hm. eauto.
    + split; [intros [x Hx]; discriminate|].
      intros (pre & suf & Heq & Hsome).
      symmetry in Heq. apply app_eq_nil in Heq as [-> ->].
      simpl in Hsome. rewrite Hm in Hsome.
      destruct Hsome as [x Hx]. discriminate.
  - destruct (rmatch ci r Some (MState passed (c :: s) None)) as [st|] eqn:Hm.
    + split; [|intros _; eauto].
      intros _. exists [], (c :: s). simpl. rewrite Hm. eauto.
    + rewrite IH. split.
      * intros (pre & suf & -> & Hsome). exists (c :: pre), suf.
        split; [reflexivity|]. simpl. rewrite <- app_assoc. exact Hsome.
      * intros (pre & suf & Heq & Hsome). destruct pre as [|c' pre].
        -- simpl in Heq, Hsome. subst suf. rewrite Hm in Hsome.
           destruct Hsome as [x Hx]. discriminate.
        -- simpl in Heq. injection Heq as <- ->. exists pre, suf.
           split; [reflexivity|]. simpl in Hsome.
           rewrite <- app_assoc in Hsome. exact Hsome.
Qed.

Lemma rmatch_Lit (ci : bool) (w : jsstring) (k : mstate -> option mstate)
    (b a : list N) (cap : option jsstring) :
  rmatch ci (Lit w) k (MState b a cap) =
  match litPrefix ci w a with
  | Some (m, rest) => k (MState (rev m ++ b) rest cap)
  | None => None
  end.
Proof.
  revert b a. induction w as [|x w IH]; intros b a; simpl; [reflexivity|].
  destruct a as [|y a]; [reflexivity|].
  destruct (cset_test ci (CChar x) y); simpl; [|reflexivity].
  rewrite IH. destruct (litPrefix ci w a) as [[m rest]|]; [|reflexivity].
  simpl. rewrite <- app_assoc. reflexivity.
Qed.

Lemma rmatch_Alt_is_Some (ci : bool) (r1 r2 : regex)
    (k : mstate -> option mstate) (st : mstate) :
  is_Some (rmatch ci (Alt r1 r2) k st) <->
  is_Some (rmatch ci r1 k st) \/ is_Some (rmatch ci r2 k st).
Proof.
  simpl. destruct (rmatch ci r1 k st) as [res|].
  - split; eauto.
  - split; [auto|]. intros [[x Hx] | H]; [discriminate | exact H].
Qed.

(** Under the [i] flag a lower-case letter or a space of the pattern matches
    the code units that lower to it. *)
Lemma cset_test_lower (x y : N) :
  lowerOrSpace x = true ->
  cset_test true (CChar x) y = true <-> ascii_lower y = x.
Proof.
  unfold lowerOrSpace, cset_test, cset_mem, ascii_lower, ascii_upper,
    is_lower, is_upper.
  intros Hx.
  repeat match goal with
         | |- context [(?a <=? ?b)] => destruct (N.leb_spec a b)
         | |- context [(?a =? ?b)] => destruct (N.eqb_spec a b)
         | H : context [(?a <=? ?b)] |- _ => destruct (N.leb_spec a b)
         | H : context [(?a =? ?b)] |- _ => destruct (N.eqb_spec a b)
         end; simpl in *; split; intros; try discriminate; try lia.
Qed.

Lemma litPrefix_lower (w : jsstring) :
  forallb lowerOrSpace w = true ->
  forall a m rest,
    litPrefix true w a = Some (m, rest) <->
    a = m ++ rest /\ toLowerCase m = w.
Proof.
  induction w as [|x w IH]; intros Hw a m rest; simpl.
  - split.
    + intros [= <- <-]. auto.
    + intros [-> Hm]. destruct m; [reflexivity | discriminate].
  - simpl in Hw. apply andb_true_iff in Hw as [Hx Hw].
    specialize (IH Hw).
    destruct a as [|y a].
    + split; [discriminate|]. intros [Ha Hm].
      destruct m; discriminate.
    + pose proof (cset_test_lower x y Hx) as Hxy.
      destruct (cset_test true (CChar x) y).
      * assert (Hy : ascii_lower y = x) by now apply Hxy.
        split.
        -- destruct (litPrefix true w a) as [[m' rest']|] eqn:Hpre;
             [|discriminate].
           intros [= <- <-]. apply IH in Hpre as [-> Hm'].
           split; [reflexivity|]. simpl. rewrite Hy, Hm'. reflexivity.
        -- intros [Ha Hm]. destruct m as [|y' m]; [discriminate|].
           simpl in Ha, Hm. injection Ha as <- ->. injection Hm as _ Hm.
           assert (Hpre : litPrefix true w (m ++ rest) = Some (m, rest))
             by (apply IH; auto).
           rewrite Hpre. reflexivity.
      * split; [discriminate|]. intros [Ha Hm].
        destruct m as [|y' m]; [discriminate|].
        simpl in Ha, Hm. injection Ha as <- ->. injection Hm as Hy _.
        apply Hxy in Hy. discriminate.
Qed.

Lemma is_word_lower (y : N) : is_word (ascii_lower y) = is_word y.
Proof.
  unfold ascii_lower, is_upper.
  destruct (N.leb_spec 65 y), (N.leb_spec y 90); cbn [andb];
    try reflexivity.
  unfold is_word, is_upper, is_lower, is_digit.
  repeat match goal with
         | |- context [(?a <=? ?b)] => destruct (N.leb_spec a b)
         | |- context [(?a =? ?b)] => destruct (N.eqb_spec a b)
         end; simpl; try reflexivity; lia.
Qed.

Lemma is_word_at_lower (m : jsstring) :
  is_word_at (toLowerCase m) = is_word_at m.
Proof. destruct m as [|y m]; simpl; [reflexivity | apply is_word_lower]. Qed.

Lemma is_word_at_app (l b : list N) :
  is_word_at l = true -> is_word_at (l ++ b) = true.
Proof. destruct l; simpl; [discriminate | auto]. Qed.

Lemma toLowerCase_rev (m : jsstring) :
  toLowerCase (rev m) = rev (toLowerCase m).
Proof. unfold toLowerCase. apply map_rev. Qed.

(** One word of the pattern followed by the closing [\b]. *)
Lemma rmatch_word_boundary (w b a : jsstring) :
  forallb lowerOrSpace w = true ->
  is_word_at (rev w) = true ->
  is_Some (rmatch true (Lit w) (rmatch true WordBoundary Some)
             (MState b a None)) <->
  exists m rest,
    a = m ++ rest /\ toLowerCase m = w /\ is_word_at rest = false.
Proof.
  intros Hw Hlast. rewrite rmatch_Lit.
  pose proof (litPrefix_lower w Hw a) as Hspec.
  destruct (litPrefix true w a) as [[m rest]|].
  - destruct (proj1 (Hspec m rest) eq_refl) as [Ha Hm].
    assert (Hend : is_word_at (rev m ++ b) = true).
    { apply is_word_at_app. rewrite <- is_word_at_lower, toLowerCase_rev, Hm.
      exact Hlast. }
    cbn [rmatch before after]. rewrite Hend.
    destruct (is_word_at rest) eqn:Hrest; cbn [xorb].
    + split; [intros [x Hx]; discriminate|].
      intros (m' & rest' & Ha' & Hm' & Hrest').
      assert (Heq : Some (m, rest) = Some (m', rest'))
        by (apply Hspec; auto).
      injection Heq as <- <-. congruence.
    + split; [|eauto]. intros _. exists m, rest. auto.
  - split; [intros [x Hx]; discriminate|].
    intros (m & rest & Ha & Hm & _).
    assert (Heq : None = Some (m, rest)) by (apply Hspec; auto).
    discriminate.
Qed.

(** The pattern of [extractDate] at one start position. *)
Lemma rmatch_relative_time (b a : jsstring) :
  is_Some (rmatch true re_relative_time Some (MState b a None)) <->
  is_word_at b = false /\
  exists m rest,
    a = m ++ rest /\ toLowerCase m ∈ relative_time_words
    /\ is_word_at rest = false.
Proof.
  unfold re_relative_time.
  change (rmatch true (Seq WordBoundary ?r) Some (MState b a None))
    with (if xorb (is_word_at b) (is_word_at a)
          then rmatch true r Some (MState b a None) else None).
  match goal with
  | |- context [rmatch true (Seq ?alts WordBoundary) Some ?st] =>
      change (rmatch true (Seq alts WordBoundary) Some st)
        with (rmatch true alts (rmatch true WordBoundary Some) st)
  end.
  assert (Hhead : forall m rest,
             a = m ++ rest -> toLowerCase m ∈ relative_time_words ->
             is_word_at a = true).
  { intros m rest -> Hin. apply is_word_at_app.
    rewrite <- is_word_at_lower.
    unfold relative_time_words in Hin.
    repeat (apply elem_of_cons in Hin as [-> | Hin]; [reflexivity|]).
    inversion Hin. }
  assert (Halts :
    is_Some (rmatch true
               (Alt (Lit (str "today"))
                  (Alt (Lit (str "yesterday"))
                     (Alt (Lit (str "this morning"))
                        (Alt (Lit (str "this afternoon"))
                           (Lit (str "earlier today"))))))
               (rmatch true WordBoundary Some) (MState b a None)) <->
    exists m rest,
      a = m ++ rest /\ toLowerCase m ∈ relative_time_words
      /\ is_word_at rest = false).
  { rewrite !rmatch_Alt_is_Some.
    rewrite !rmatch_word_boundary by reflexivity.
    unfold relative_time_words. split.
    - intros H.
      repeat (destruct H as [(m & rest & Ha & Hm & Hr) | H];
              [exists m, rest; rewrite Hm;
               split; [exact Ha|]; split; [|exact Hr];
               repeat (first [left; reflexivity | right])|]).
      destruct H as (m & rest & Ha & Hm & Hr).
      exists m, rest. rewrite Hm. split; [exact Ha|]. split; [|exact Hr].
      repeat (first [left; reflexivity | right]).
    - intros (m & rest & Ha & Hin & Hr).
      do 4 (apply elem_of_cons in Hin as [Hm | Hin];
            [left; exists m, rest; auto | right]).
      apply elem_of_cons in Hin as [Hm | Hin]; [exists m, rest; auto|].
      inversion Hin. }
  destruct (xorb (is_word_at b) (is_word_at a)) eqn:Hx.
  - rewrite Halts. split.
    + intros (m & rest & Ha & Hin & Hr). split; [|eauto].
      rewrite (Hhead m rest Ha Hin) in Hx.
      destruct (is_word_at b); [discriminate | reflexivity].
    + intros [_ H]. exact H.
  - split; [intros [x Hxx]; discriminate|].
    intros (Hb & m & rest & Ha & Hin & Hr).
    rewrite Hb, (Hhead m rest Ha Hin) in Hx. discriminate.
Qed.

(** The pattern of [extractDate] matches exactly the lines that contain a
    relative-time word. *)
Lemma test_relative_time (line : jsstring) :
  test true re_relative_time line = true <-> containsRelativeTimeWord line.
Proof.
  unfold test, exec, containsRelativeTimeWord.
  transitivity (is_Some (search true re_relative_time [] line)).
  - destruct (search true re_relative_time [] line); split; eauto.
    + discriminate.
    + intros [x Hx]. discriminate.
  - rewrite search_is_Some. split.
    + intros (pre & suf & -> & Hm). rewrite app_nil_r in Hm.
      apply rmatch_relative_time in Hm
        as (Hpre & m & rest & -> & Hin & Hrest).
      exists pre, m, rest. auto.
    + intros (pre & w & post & -> & Hin & Hpre & Hpost).
      exists pre, (w ++ post). split; [reflexivity|].
      rewrite app_nil_r. apply rmatch_relative_time.
      split; [exact Hpre|]. exists w, post. auto.
Qed.

(** ** Title lines decide source and publication time *)

Section TitleLines.

Variable clock : nat -> jsstring.

Lemma extractDate_spec (line : jsstring) (k : nat) :
  ((extractDate clock line k).1 <> None <-> containsRelativeTimeWord line)
  /\ (forall d, (extractDate clock line k).1 = Some d -> d = clock k)
  /\ (k <= (extractDate clock line k).2)%nat.
Proof.
  unfold extractDate. rewrite <- test_relative_time.
  destruct (test true re_relative_time line); simpl.
  - split; [split; [reflexivity | discriminate]|].
    split; [intros d [= <-]; reflexivity | lia].
  - split; [split; [congruence | discriminate]|].
    split; [discriminate | lia].
Qed.

Lemma pushCurrent_fromTitleLine (content : jsstring) (t0 : nat)
    (st : pstate) :
  titleInvariant clock content t0 st ->
  Forall (fromTitleLine clock content t0) (pushCurrent st).
Proof.
  intros (Harts & Hcur & _). unfold pushCurrent.
  destruct (truthy (title (currentArticle st))) eqn:Ht; simpl; [|exact Harts].
  destruct (truthy (summary (currentArticle st))); simpl; [|exact Harts].
  apply Forall_app. split; [exact Harts|].
  constructor; [|constructor].
  destruct Hcur as [Hempty | Hcur]; [|exact Hcur].
  rewrite Hempty in Ht. discriminate.
Qed.

Lemma parseLine_titleInvariant (content : jsstring) (t0 : nat)
    (st : pstate) (raw : jsstring) :
  raw ∈ contentLines content ->
  titleInvariant clock content t0 st ->
  titleInvariant clock content t0 (parseLine clock st raw).
Proof.
  intros Hraw Hinv.
  destruct (parseLine_cases clock st raw)
    as [[_ ->] | [(_ & Htitle & ->)
       | [(_ & _ & Hcur & _ & text & _ & ->) | (_ & _ & _ & ->)]]];
    try exact Hinv.
  - pose proof (extractDate_spec (trim raw) (ticks st))
      as (Hset & Hval & Hmono).
    destruct Hinv as (Harts & Hc & Ht).
    split; [apply pushCurrent_fromTitleLine; split; auto|].
    simpl. split; [|lia]. right.
    exists raw, (trim raw). simpl. repeat split; auto.
    + apply Hset.
    + apply Hset.
    + intros d Hd. exists (ticks st). split; [exact Ht | exact (Hval d Hd)].
  - destruct Hinv as (Harts & Hc & Ht).
    split; [exact Harts|]. simpl. split; [|exact Ht]. right.
    destruct Hc as [Hempty | Hc].
    + rewrite Hempty in Hcur. discriminate.
    + exact Hc.
Qed.

(** C10: every item the line scan of [parseNewsResponse] produces was opened
    by a line classified as a title, and that line alone decides two of its
    fields.  The item has [publishedAt] set, to a reading of the clock, if
    and only if the title line contains one of the words [today],
    [yesterday], [this morning], [this afternoon], [earlier today] as a
    whole word in any letter case; its source is what [extractSource] finds
    in the title line.  Continuation lines reach the summary only. *)
Theorem scannedArticles_fromTitleLine (content : jsstring) (t0 : nat) :
  Forall (fun a =>
            exists raw line,
              raw ∈ contentLines content
              /\ line = trim raw
              /\ looksLikeTitle line = true
              /\ title a = Some (cleanTitle line)
              /\ source a = extractSource line
              /\ (publishedAt a <> None <-> containsRelativeTimeWord line)
              /\ (forall d, publishedAt a = Some d ->
                            exists k, (t0 <= k)%nat /\ d = clock k))
    (scannedArticles clock content t0).
Proof.
  change (Forall (fromTitleLine clock content t0)
            (scannedArticles clock content t0)).
  unfold scannedArticles, scanLines.
  apply pushCurrent_fromTitleLine.
  apply (foldl_parseLine_invariant clock (titleInvariant clock content t0)).
  - intros st raw Hraw. apply parseLine_titleInvariant. exact Hraw.
  - split; [constructor|]. split; [left; reflexivity | simpl; lia].
Qed.

(** The items [parseNewsResponse] returns are the first five of the line
    scan, unless the scan found none. *)
Lemma parseNewsResponse_scanned (content : jsstring) (t0 : nat) :
  scannedArticles clock content t0 <> [] ->
  (parseNewsResponse clock content t0).1 =
  take 5 (scannedArticles clock content t0).
Proof.
  intros Hfound.
  destruct (parseNewsResponse_cases clock content t0)
    as [(_ & ->) | [(Hnil & _) | (Hnil & _)]]; try contradiction.
  reflexivity.
Qed.

End TitleLines.

(** ** Worked runs *)

(** Six stories are scanned, five are returned. *)
Example parseNewsResponse_six_stories :
  length (scannedArticles sampleClock sixStories 0) = 6%nat
  /\ length (parseNewsResponse sampleClock sixStories 0).1 = 5%nat.
Proof. split; vm_compute; reflexivity. Qed.

(** A relative-time word and a source in the title line set both fields;
    the title itself loses the numbering and the source suffix. *)
Example parseNewsResponse_dated_story (clock : nat -> jsstring) (t0 : nat) :
  parseNewsResponse clock datedStory t0 =
  ([mkArticle (Some (str "Markets rally Today"))
      (Some (str "Stocks rose sharply in early trading.")) None
      (Some (str "Reuters")) (Some (clock t0))], S t0).
Proof. vm_compute. reflexivity. Qed.

(** Only whole words count: [Todays] does not set the publication time. *)
Example extractDate_whole_word (clock : nat -> jsstring) :
  extractDate clock (str "1. Todays headlines") 0 = (None, 0%nat)
  /\ extractDate clock (str "1. Headlines, TODAY!") 0 = (Some (clock 0%nat), 1%nat).
Proof. split; vm_compute; reflexivity. Qed.

(** The marker of the fallback summary follows the length of the untrimmed
    text: here nothing is cut from the 490 letters, yet the marker is
    appended. *)
Example parseNewsResponse_padded_text (clock : nat -> jsstring) :
  exists item,
    (parseNewsResponse clock paddedText 0).1 = [item]
    /\ summary item = Some (repeat 97 490 ++ str "...").
Proof. eexists. split; vm_compute; reflexivity. Qed.

(** Without description and content the summary is the text
    [undefined...]. *)
Example mapArticle_bare :
  summary (mapArticle bareRaw) = Some (str "undefined...").
Proof. reflexivity. Qed.

(** * Further properties of the code *)

(** ** Trimming *)

Lemma trimStart_decompose (s : jsstring) :
  exists ws, s = ws ++ trimStart s /\ blank ws = true.
Proof.
  induction s as [|c s (ws & Hs & Hws)]; simpl.
  - exists []. split; reflexivity.
  - destruct (is_space c) eqn:Hc.
    + exists (c :: ws). split; [simpl; congruence|].
      simpl. rewrite Hc. exact Hws.
    + exists []. split; reflexivity.
Qed.

Lemma trimStart_head (s : jsstring) (c : N) (r : jsstring) :
  trimStart s = c :: r -> is_space c = false.
Proof.
  induction s as [|d s IH]; simpl; [discriminate|].
  destruct (is_space d) eqn:Hd; [exact IH|].
  intros [= <- <-]. exact Hd.
Qed.

Lemma trimStart_blank (s : jsstring) :
  trimStart s = [] <-> blank s = true.
Proof.
  induction s as [|c s IH]; simpl; [split; reflexivity|].
  destruct (is_space c); simpl; [exact IH | split; discriminate].
Qed.

Lemma blank_app (s1 s2 : jsstring) :
  blank (s1 ++ s2) = blank s1 && blank s2.
Proof. apply forallb_app. Qed.

Lemma blank_rev (s : jsstring) : blank (rev s) = blank s.
Proof.
  induction s as [|c s IH]; simpl; [reflexivity|].
  rewrite blank_app, IH. simpl. rewrite andb_true_r. apply andb_comm.
Qed.

Lemma trim_blank (s : jsstring) : trim s = [] <-> blank s = true.
Proof.
  unfold trim, trimEnd. split.
  - intros H. apply (f_equal (@rev N)) in H. rewrite rev_involutive in H.
    simpl in H. apply trimStart_blank in H. rewrite blank_rev in H.
    destruct (trimStart s) as [|c r] eqn:Hs.
    + now apply trimStart_blank.
    + apply trimStart_head in Hs. simpl in H. rewrite Hs in H. discriminate.
  - intros H. apply trimStart_blank in H. rewrite H. reflexivity.
Qed.

Lemma nonempty_trim_false (s : jsstring) :
  nonempty (trim s) = false <-> blank s = true.
Proof.
  rewrite <- trim_blank. destruct (trim s); simpl; split; congruence.
Qed.

(** The pieces of a split are made of code units of the text. *)
Lemma split_Forall (P : N -> Prop) (sep : N) (s : jsstring) :
  Forall P s -> Forall (Forall P) (split sep s).
Proof.
  induction s as [|c s IH]; intros Hs; simpl.
  - repeat constructor.
  - inversion Hs as [|? ? Hc Hs']; subst. specialize (IH Hs').
    destruct (c =? sep).
    + constructor; [constructor | exact IH].
    + destruct (split sep s) as [|piece pieces].
      * repeat constructor. exact Hc.
      * inversion IH; subst. constructor; [constructor|]; assumption.
Qed.

(** A blank text has no line for the loop. *)
Lemma contentLines_blank (content : jsstring) :
  blank content = true -> contentLines content = [].
Proof.
  intros Hblank. unfold contentLines.
  assert (Hall : Forall (fun line => blank line = true) (split 10 content)).
  { eapply Forall_impl.
    - apply (split_Forall (fun c => is_space c = true)).
      apply Forall_forall. intros c Hc.
      unfold blank in Hblank. rewrite forallb_forall in Hblank.
      apply Hblank. now apply list_elem_of_In.
    - intros line Hline. unfold blank. apply forallb_forall.
      intros c Hc. rewrite Forall_forall in Hline. apply Hline.
      now apply list_elem_of_In. }
  induction Hall as [|line lines Hline _ IH]; simpl; [reflexivity|].
  apply nonempty_trim_false in Hline. rewrite Hline. exact IH.
Qed.

(** ** The parser: empty results, urls, summaries, clock readings *)

Section ParserExtras.

Variable clock : nat -> jsstring.

Lemma scanLines_blank (content : jsstring) (t0 : nat) :
  blank content = true ->
  scanLines clock content t0 = PState [] emptyArticle t0.
Proof.
  intros Hblank. unfold scanLines.
  rewrite (contentLines_blank content Hblank). reflexivity.
Qed.

Lemma parseNewsResponse_blank (content : jsstring) (t0 : nat) :
  blank content = true -> parseNewsResponse clock content t0 = ([], t0).
Proof.
  intros Hblank.
  destruct (parseNewsResponse_cases clock content t0)
    as [(Hfound & _) | [(_ & Hne & _) | (_ & _ & ->)]].
  - exfalso. apply Hfound. unfold scannedArticles.
    rewrite (scanLines_blank content t0 Hblank). reflexivity.
  - apply nonempty_trim_false in Hblank. congruence.
  - rewrite (scanLines_blank content t0 Hblank). reflexivity.
Qed.

Lemma parseNewsResponse_nil_iff (content : jsstring) (t0 : nat) :
  (parseNewsResponse clock content t0).1 = [] <-> blank content = true.
Proof.
  pose proof (parseNewsResponse_blank content t0) as Hrun.
  split.
  - intros Hnil.
    destruct (parseNewsResponse_cases clock content t0)
      as [(Hfound & Hparse) | [(_ & _ & Hparse) | (_ & Hne & _)]].
    + rewrite Hparse in Hnil. simpl in Hnil.
      destruct (scannedArticles clock content t0); [contradiction|].
      discriminate.
    + rewrite Hparse in Hnil. discriminate.
    + now apply nonempty_trim_false.
  - intros Hblank. rewrite (Hrun Hblank). reflexivity.
Qed.

(** X1: The parser returns no item exactly for a blank text, and then it does
    not read the clock. *)
Theorem parseNewsResponse_empty_iff_blank (content : jsstring) (t0 : nat) :
  ((parseNewsResponse clock content t0).1 = [] <-> blank content = true)
  /\ (blank content = true -> parseNewsResponse clock content t0 = ([], t0)).
Proof.
  split; [apply parseNewsResponse_nil_iff | apply parseNewsResponse_blank].
Qed.

Lemma pushCurrent_Forall (P : NewsArticle -> Prop) (st : pstate) :
  Forall P (articles st) -> P (currentArticle st) ->
  Forall P (pushCurrent st).
Proof.
  intros Harts Hcur. unfold pushCurrent.
  destruct (_ && _); [|exact Harts].
  apply Forall_app. split; [exact Harts | repeat constructor; exact Hcur].
Qed.

(** A property of articles that holds of [{}], of every fresh article and
    survives an update of the summary holds of everything the scan
    returns. *)
Lemma scannedArticles_Forall (P : NewsArticle -> Prop) (content : jsstring)
    (t0 : nat) :
  P emptyArticle ->
  (forall line t,
      P (mkArticle (Some (cleanTitle line)) (Some []) None
           (extractSource line) (extractDate clock line t).1)) ->
  (forall a text,
      P a -> (20 < length text)%nat ->
      P (mkArticle (title a) (Some text) (url a) (source a)
           (publishedAt a))) ->
  (forall a text,
      P a -> truthy (summary a) = true -> (20 < length text)%nat ->
      P (mkArticle (title a)
           (Some (default [] (summary a) ++ str " " ++ text))
           (url a) (source a) (publishedAt a))) ->
  Forall P (scannedArticles clock content t0).
Proof.
  intros Hempty Hfresh Hfirst Hmore.
  unfold scannedArticles, scanLines.
  assert (Hinv : (fun st => Forall P (articles st) /\ P (currentArticle st))
                   (foldl (parseLine clock) (PState [] emptyArticle t0)
                      (contentLines content))).
  { apply foldl_parseLine_invariant; [|split; [constructor | exact Hempty]].
    intros st line _ [Harts Hcur]. unfold parseLine.
    destruct (nonempty (trim line)); simpl; [|auto].
    destruct (looksLikeTitle (trim line)).
    - destruct (extractDate clock (trim line) (ticks st)) as [d t'] eqn:Hd.
      simpl. split; [apply pushCurrent_Forall; assumption|].
      specialize (Hfresh (trim line) (ticks st)).
      rewrite Hd in Hfresh. exact Hfresh.
    - destruct (truthy (title (currentArticle st))); simpl; [|auto].
      destruct (Nat.ltb_spec 20 (length (trim line))) as [Hlen | _];
        simpl; [|auto].
      split; [exact Harts|].
      destruct (truthy (summary (currentArticle st))) eqn:Hsum; simpl.
      + apply Hmore; assumption.
      + apply Hfirst; assumption. }
  destruct Hinv as [Harts Hcur]. apply pushCurrent_Forall; assumption.
Qed.

(** X2: The parser never sets a url. *)
Theorem parseNewsResponse_no_url (content : jsstring) (t0 : nat) :
  Forall (fun a => url a = None) (parseNewsResponse clock content t0).1.
Proof.
  destruct (parseNewsResponse_cases clock content t0)
    as [(_ & ->) | [(_ & _ & ->) | (_ & _ & ->)]]; simpl.
  - apply slice0_sublist.
    apply scannedArticles_Forall; simpl; auto.
  - repeat constructor.
  - constructor.
Qed.

(** X3: Every item comes with a summary of more than 20 code units, unless it
    is the fallback article. *)
Theorem parseNewsResponse_summary_length (content : jsstring) (t0 : nat) :
  Forall (fun a =>
            (exists k, a = fallbackArticle content (clock k))
            \/ exists s, summary a = Some s /\ (20 < length s)%nat)
    (parseNewsResponse clock content t0).1.
Proof.
  destruct (parseNewsResponse_cases clock content t0)
    as [(_ & ->) | [(_ & _ & ->) | (_ & _ & ->)]]; simpl.
  - apply slice0_sublist.
    assert (Hshape : Forall summaryShape (scannedArticles clock content t0)).
    { apply scannedArticles_Forall; unfold summaryShape; simpl.
      - discriminate.
      - intros _ _ s [= <-]. left. reflexivity.
      - intros a text _ Hlen s [= <-]. right. exact Hlen.
      - intros a text _ _ Hlen s [= <-]. right.
        rewrite length_app. cbn [length]. lia. }
    pose proof (scannedArticles_wellFormed clock content t0) as Hwf.
    rewrite Forall_forall in Hshape, Hwf. apply Forall_forall.
    intros a Ha. right.
    destruct (Hwf a Ha) as [_ (s & Hs & Hne)].
    exists s. split; [exact Hs|].
    destruct (Hshape a Ha s Hs); [contradiction | assumption].
  - constructor; [|constructor]. left. eexists. reflexivity.
  - constructor.
Qed.

End ParserExtras.

Section ParserClock.

Variable clock : nat -> jsstring.

Lemma datedWithin_mono (t0 t1 t2 : nat) (a : NewsArticle) :
  (t1 <= t2)%nat -> datedWithin clock t0 t1 a -> datedWithin clock t0 t2 a.
Proof.
  intros Hle Ha d Hd. destruct (Ha d Hd) as (k & Hk & ->).
  exists k. split; [lia | reflexivity].
Qed.

Lemma scanLines_dated (content : jsstring) (t0 : nat) :
  let st := scanLines clock content t0 in
  (t0 <= ticks st)%nat
  /\ Forall (datedWithin clock t0 (ticks st)) (articles st)
  /\ datedWithin clock t0 (ticks st) (currentArticle st).
Proof.
  unfold scanLines.
  apply (foldl_parseLine_invariant clock
           (fun st => (t0 <= ticks st)%nat
                      /\ Forall (datedWithin clock t0 (ticks st)) (articles st)
                      /\ datedWithin clock t0 (ticks st) (currentArticle st))).
  - intros st line _ (Ht & Harts & Hcur). unfold parseLine.
    destruct (nonempty (trim line)); simpl; [|auto].
    destruct (looksLikeTitle (trim line)).
    + unfold extractDate.
      destruct (test true re_relative_time (trim line)); simpl.
      * split; [lia|]. split.
        -- apply pushCurrent_Forall.
           ++ eapply Forall_impl; [exact Harts|].
              intros a. apply datedWithin_mono. lia.
           ++ revert Hcur. apply datedWithin_mono. lia.
        -- intros d [= <-]. exists (ticks st). split; [lia | reflexivity].
      * split; [lia|]. split.
        -- apply pushCurrent_Forall; assumption.
        -- intros d. discriminate.
    + destruct (_ && _); simpl; auto.
  - simpl. split; [lia|]. split; [constructor | intros d; discriminate].
Qed.

Lemma parseNewsResponse_dated (content : jsstring) (t0 : nat) :
  (t0 <= (parseNewsResponse clock content t0).2)%nat
  /\ Forall (datedWithin clock t0 (parseNewsResponse clock content t0).2)
       (parseNewsResponse clock content t0).1.
Proof.
  destruct (scanLines_dated content t0) as (Ht & Harts & Hcur).
  assert (Hfound : Forall (datedWithin clock t0
                             (ticks (scanLines clock content t0)))
                     (scannedArticles clock content t0))
    by (apply pushCurrent_Forall; assumption).
  destruct (parseNewsResponse_cases clock content t0)
    as [(_ & ->) | [(_ & _ & ->) | (_ & _ & ->)]]; simpl.
  - split; [exact Ht|]. apply slice0_sublist. exact Hfound.
  - split; [lia|]. constructor; [|constructor].
    intros d [= <-]. eexists. split; [|reflexivity]. lia.
  - split; [exact Ht | constructor].
Qed.

(** X4: The parser reads the clock forwards, and every publication time it sets
    is one of the readings it took during the call. *)
Theorem parseNewsResponse_clock (content : jsstring) (t0 : nat) :
  let result := parseNewsResponse clock content t0 in
  (t0 <= result.2)%nat
  /\ Forall (fun a =>
               forall d, publishedAt a = Some d ->
                         exists k, (t0 <= k < result.2)%nat /\ d = clock k)
       result.1.
Proof. exact (parseNewsResponse_dated content t0). Qed.

End ParserClock.

(** ** The fallback chain on every path *)

Section ChainExtras.

Variable env : Env.
Variable this : NewsService.

(** X5: [getLatestNews] never raises, whatever the providers do, and the result
    carries the query it was called with. *)
Theorem getLatestNews_total (query : jsvalue) (limit : Z) (t : nat) :
  exists r t',
    getLatestNews env this query limit t = (Return r, t')
    /\ r_query r = query.
Proof.
  destruct (getLatestNews_returns env this query limit t)
    as (r & t' & Hrun & Hq & _).
  exists r, t'. auto.
Qed.

(** X6: On every path the time stamp of the result is the last clock reading of
    the call. *)
Theorem getLatestNews_timestamp_last (query : jsvalue) (limit : Z) (t : nat) :
  exists r k,
    getLatestNews env this query limit t = (Return r, S k)
    /\ (t <= k)%nat
    /\ r_timestamp r = clock env k.
Proof.
  destruct (primary_answers_or_fails env this query limit) as [[c Hc] | Hp].
  - rewrite (getLatestNews_primary env this query limit t c Hc).
    rewrite (getNewsFromPerplexity_answer env this query limit t c Hc).
    eexists. eexists. split; [reflexivity|]. split; [|reflexivity].
    apply parseNewsResponse_dated.
  - destruct (alternate_answers_or_fails env this query limit)
      as [[l Hl] | Ha].
    + rewrite (getLatestNews_alternate env this query limit t l Hp Hl).
      eexists. eexists. split; [reflexivity|]. split; [lia | reflexivity].
    + rewrite (getLatestNews_mock env this query limit t Hp Ha).
      destruct (getMockNews_result env query limit t) as (a & b & -> & _).
      eexists. eexists. split; [reflexivity|]. split; [lia | reflexivity].
Qed.

(** The text handed to the parser is the content of the reply, or the empty
    string when the reply has none. *)
Lemma content_or_empty (c : option jsstring) :
  (if truthy c then default [] c else []) = default [] c.
Proof. destruct c as [[|x s]|]; reflexivity. Qed.

(** X7: A primary provider that answers with a blank content ends the chain:
    the result has no article, and the alternate provider is not asked. *)
Theorem getLatestNews_blank_content (query : jsvalue) (limit : Z) (t : nat)
    (c : option jsstring) :
  perplexityReply env this query limit = PContent c ->
  blank (default [] c) = true ->
  getLatestNews env this query limit t =
  (Return (mkResponse [] query (clock env t)), S t).
Proof.
  intros Hc Hblank.
  rewrite (getLatestNews_primary env this query limit t c Hc).
  rewrite (getNewsFromPerplexity_answer env this query limit t c Hc).
  rewrite content_or_empty.
  rewrite (parseNewsResponse_blank (clock env) (default [] c) t Hblank).
  reflexivity.
Qed.

(** X8: On the placeholder path the number of items follows [slice(0, limit)]
    for every integer limit: [min(limit, 2)] for a limit that is not
    negative, [max(2 + limit, 0)] for a negative one; never more than 2. *)
Theorem getLatestNews_placeholder_any_limit (query : jsvalue) (limit : Z)
    (t : nat) :
  primaryFails env this query limit ->
  alternateFails env this query limit ->
  exists r t',
    getLatestNews env this query limit t = (Return r, t')
    /\ Z.of_nat (length (r_articles r)) =
       (if (limit <? 0)%Z then Z.max (2 + limit) 0 else Z.min limit 2)
    /\ (length (r_articles r) <= 2)%nat.
Proof.
  intros Hp Ha.
  rewrite (getLatestNews_mock env this query limit t Hp Ha).
  destruct (getMockNews_result env query limit t) as (a & b & -> & _).
  eexists. eexists. split; [reflexivity|]. simpl.
  unfold slice0. destruct (Z.ltb_spec limit 0);
    rewrite length_take; simpl; lia.
Qed.

Lemma getLatestNews_summarised (query : jsvalue) (limit : Z) (t : nat) :
  exists r t',
    getLatestNews env this query limit t = (Return r, t')
    /\ Forall (fun a => exists s, summary a = Some s /\ s <> [])
         (r_articles r).
Proof.
  destruct (primary_answers_or_fails env this query limit) as [[c Hc] | Hp].
  - rewrite (getLatestNews_primary env this query limit t c Hc).
    rewrite (getNewsFromPerplexity_answer env this query limit t c Hc).
    eexists. eexists. split; [reflexivity|]. simpl.
    assert (Hwf : Forall wellFormed
                    (parseNewsResponse (clock env)
                       (if truthy c then default [] c else []) t).1).
    { destruct (parseNewsResponse_cases (clock env)
                  (if truthy c then default [] c else []) t)
        as [(_ & ->) | [(_ & Hne & ->) | (_ & _ & ->)]]; simpl.
      - apply slice0_sublist, scannedArticles_wellFormed.
      - constructor; [|constructor]. now apply fallbackArticle_wellFormed.
      - constructor. }
    eapply Forall_impl; [exact Hwf|].
    intros a [_ Hs]. exact Hs.
  - destruct (alternate_answers_or_fails env this query limit)
      as [[l Hl] | Ha].
    + rewrite (getLatestNews_alternate env this query limit t l Hp Hl).
      eexists. eexists. split; [reflexivity|]. simpl.
      apply Forall_forall. intros a Ha.
      apply list_elem_of_In, in_map_iff in Ha as (raw & <- & _).
      unfold mapArticle. simpl. eexists. split; [reflexivity|].
      destruct (truthy (r_description raw)) eqn:Hd.
      * apply truthy_true in Hd as (s & -> & Hne). exact Hne.
      * intros Heq. apply app_eq_nil in Heq as [_ Heq]. discriminate.
    + rewrite (getLatestNews_mock env this query limit t Hp Ha).
      unfold getMockNews, bind, now, ret. cbv beta iota zeta.
      eexists. eexists. split; [reflexivity|].
      apply slice0_sublist.
      constructor; [|constructor; [|constructor]];
        (eexists; split; [reflexivity | discriminate]).
Qed.

(** X9: Every article of a result has a summary that is a non-empty string, on
    each of the three paths. *)
Theorem getLatestNews_summaries (query : jsvalue) (limit : Z) (t : nat) :
  exists r t',
    getLatestNews env this query limit t = (Return r, t')
    /\ Forall (fun a => exists s, summary a = Some s /\ s <> [])
         (r_articles r).
Proof. exact (getLatestNews_summarised query limit t). Qed.

End ChainExtras.

(** X10: Once the primary provider answers, nothing of the alternate provider,
    neither its replies nor its credential, has a part in the result. *)
Theorem getLatestNews_short_circuit (env : Env) (this : NewsService)
    (query : jsvalue) (limit : Z) (t : nat)
    (other : NewsApiParams -> NewsApiReply) (key : jsstring) :
  primaryAnswers env this query limit ->
  getLatestNews (mkEnv (clock env) (perplexity_post env) other)
    (mkService (perplexityApiKey this) key) query limit t
  = getLatestNews env this query limit t.
Proof.
  intros [c Hc].
  set (env' := mkEnv (clock env) (perplexity_post env) other).
  set (this' := mkService (perplexityApiKey this) key).
  assert (Hc' : perplexityReply env' this' query limit = PContent c)
    by exact Hc.
  rewrite (getLatestNews_primary env this query limit t c Hc).
  rewrite (getNewsFromPerplexity_answer env this query limit t c Hc).
  rewrite (getLatestNews_primary env' this' query limit t c Hc').
  rewrite (getNewsFromPerplexity_answer env' this' query limit t c Hc').
  reflexivity.
Qed.

(** X11: Without a credential for the alternate provider, its replies have no
    part in the result: the request is not sent. *)
Theorem getLatestNews_no_key (env : Env) (this : NewsService)
    (query : jsvalue) (limit : Z) (t : nat)
    (other : NewsApiParams -> NewsApiReply) :
  newsApiKey this = [] ->
  getLatestNews (mkEnv (clock env) (perplexity_post env) other) this
    query limit t
  = getLatestNews env this query limit t.
Proof.
  intros Hkey.
  set (env' := mkEnv (clock env) (perplexity_post env) other).
  destruct (primary_answers_or_fails env this query limit) as [[c Hc] | Hp].
  - assert (Hc' : perplexityReply env' this query limit = PContent c)
      by exact Hc.
    rewrite (getLatestNews_primary env this query limit t c Hc).
    rewrite (getNewsFromPerplexity_answer env this query limit t c Hc).
    rewrite (getLatestNews_primary env' this query limit t c Hc').
    rewrite (getNewsFromPerplexity_answer env' this query limit t c Hc').
    reflexivity.
  - assert (Hp' : primaryFails env' this query limit) by exact Hp.
    rewrite (getLatestNews_mock env this query limit t Hp (or_introl Hkey)).
    rewrite (getLatestNews_mock env' this query limit t Hp'
               (or_introl Hkey)).
    reflexivity.
Qed.

(** ** The category table *)

Lemma toLowerCase_noUpper (s : jsstring) : noUpper (toLowerCase s) = true.
Proof.
  induction s as [|c s IH]; simpl; [reflexivity|].
  rewrite IH, andb_true_r. unfold ascii_lower, is_upper.
  destruct (N.leb_spec 65 c), (N.leb_spec c 90); simpl;
    repeat match goal with
           | |- context [(?a <=? ?b)] => destruct (N.leb_spec a b)
           end; simpl; try reflexivity; lia.
Qed.

(** Of the properties of [Object.prototype] a lowered label can only name
    [constructor] and [__proto__]: the other names have a capital letter. *)
Lemma objectPrototype_lowered (category : jsstring) :
  toLowerCase category <> str "constructor" ->
  toLowerCase category <> str "__proto__" ->
  objectPrototype !! toLowerCase category = None.
Proof.
  intros Hc Hp. pose proof (toLowerCase_noUpper category) as Hlow.
  unfold objectPrototype. apply not_elem_of_list_to_map_1.
  cbn [map fmap list_fmap fst].
  intros Hin.
  repeat (apply elem_of_cons in Hin as [Heq | Hin];
          [first [ contradiction
                 | rewrite Heq in Hlow; vm_compute in Hlow; discriminate ]|]).
  inversion Hin.
Qed.

Lemma categoryQueries_truthy (key q : jsstring) :
  categoryQueries !! key = Some q -> nonempty q = true.
Proof.
  intros Hq. unfold categoryQueries in Hq.
  apply elem_of_list_to_map_2 in Hq.
  repeat (apply elem_of_cons in Hq as [[= _ ->] | Hq]; [reflexivity|]).
  inversion Hq.
Qed.

(** X12: For every label whose lowered form is neither [constructor] nor
    [__proto__], [getNewsByCategory] asks [getLatestNews] for the template
    of the table when the lowered label is one of its keys, and for
    [latest <label> news today], with the label as it was typed,
    otherwise. *)
Theorem getNewsByCategory_query (env : Env) (this : NewsService)
    (category : jsstring) (limit : Z) :
  toLowerCase category <> str "constructor" ->
  toLowerCase category <> str "__proto__" ->
  getNewsByCategory env this category limit =
  getLatestNews env this
    (VString (default (str "latest " ++ category ++ str " news today")
                (categoryQueries !! toLowerCase category))) limit.
Proof.
  intros Hc Hp. unfold getNewsByCategory, getProperty.
  destruct (categoryQueries !! toLowerCase category) as [q|] eqn:Hq.
  - simpl. rewrite (categoryQueries_truthy _ q Hq). reflexivity.
  - rewrite (objectPrototype_lowered category Hc Hp). reflexivity.
Qed.

Lemma getNewsByCategory_query_witness :
  getNewsByCategory downEnv sampleService (str "Health") 5 =
  getLatestNews downEnv sampleService
    (VString (default (str "latest " ++ str "Health" ++ str " news today")
                (categoryQueries !! toLowerCase (str "Health")))) 5.
Proof.
  apply (getNewsByCategory_query downEnv sampleService (str "Health") 5);
    vm_compute; discriminate.
Defined.

(** ** The matcher: anchors and repetitions of a class *)

Lemma search_Some_elim (ci : bool) (r : regex) (s passed : jsstring)
    (m : rmatch_result) :
  search ci r passed s = Some m ->
  exists pre suf st,
    s = pre ++ suf
    /\ rmatch ci r Some (MState (rev pre ++ passed) suf None) = Some st
    /\ m = MatchResult (rev passed ++ pre) (after st) (capture st).
Proof.
  revert passed. induction s as [|c s IH]; intros passed; simpl.
  - destruct (rmatch ci r Some (MState passed [] None)) as [st|] eqn:Hm;
      [|discriminate].
    intros [= <-]. exists [], [], st. simpl. rewrite app_nil_r. auto.
  - destruct (rmatch ci r Some (MState passed (c :: s) None)) as [st|] eqn:Hm.
    + intros [= <-]. exists [], (c :: s), st. simpl. rewrite app_nil_r. auto.
    + intros Hs. apply IH in Hs as (pre & suf & st & -> & Hst & ->).
      exists (c :: pre), suf, st. split; [reflexivity|].
      simpl. rewrite <- !app_assoc. simpl. auto.
Qed.

(** A pattern that cannot match after the first position is tried at the
    first position only. *)
Lemma search_anchored (ci : bool) (r : regex) (s : jsstring) :
  (forall b a cap, b <> [] -> rmatch ci r Some (MState b a cap) = None) ->
  search ci r [] s =
  match rmatch ci r Some (MState [] s None) with
  | Some st => Some (MatchResult [] (after st) (capture st))
  | None => None
  end.
Proof.
  intros Hanch.
  assert (Hlater : forall s' passed, passed <> [] ->
                                     search ci r passed s' = None).
  { induction s' as [|c s' IH]; intros passed Hne; simpl;
      rewrite (Hanch passed _ None Hne); [reflexivity|].
    apply IH. discriminate. }
  destruct s as [|c s]; simpl;
    destruct (rmatch ci r Some _); try reflexivity.
  apply Hlater. discriminate.
Qed.

Lemma rmatch_Star_Class (ci inv : bool) (cs : cset)
    (k : mstate -> option mstate) (b a : list N) (cap : option jsstring) :
  rmatch ci (Star (Class inv cs)) k (MState b a cap) =
  starRun (classAccepts ci inv cs) k b a cap.
Proof.
  cbn [rmatch after].
  match goal with
  | |- ?loop (length a) (MState b a cap) = _ =>
      enough (H : forall n b' a', (length a' <= n)%nat ->
                  loop n (MState b' a' cap)
                  = starRun (classAccepts ci inv cs) k b' a' cap)
        by (apply H; lia)
  end.
  intros n b' a'. revert n b'.
  induction a' as [|c a' IH]; intros n b' Hn.
  - destruct n; reflexivity.
  - destruct n as [|n]; [simpl in Hn; lia|].
    cbn [starRun]. cbn [before after capture length].
    unfold classAccepts at 1.
    destruct (xorb inv (cset_test ci cs c)).
    + destruct (Nat.ltb_spec (length a') (S (length a'))) as [_ | Hge];
        [|lia].
      rewrite IH by (simpl in Hn; lia). reflexivity.
    + reflexivity.
Qed.

Lemma starRun_is_Some (p : N -> bool) (k : mstate -> option mstate)
    (w rest b : list N) (cap : option jsstring) :
  forallb p w = true ->
  is_Some (k (MState (rev w ++ b) rest cap)) ->
  is_Some (starRun p k b (w ++ rest) cap).
Proof.
  revert b. induction w as [|x w IH]; intros b Hw Hk; simpl in *.
  - destruct rest as [|c rest]; simpl; [exact Hk|].
    destruct (p c); [|exact Hk].
    destruct (starRun p k (c :: b) rest cap); [eauto | exact Hk].
  - apply andb_true_iff in Hw as [Hx Hw]. rewrite Hx.
    rewrite <- app_assoc in Hk. simpl in Hk.
    destruct (IH (x :: b) Hw Hk) as [res ->]. eauto.
Qed.

Lemma starRun_Some_elim (p : N -> bool) (k : mstate -> option mstate)
    (a b : list N) (cap : option jsstring) (res : mstate) :
  starRun p k b a cap = Some res ->
  exists w rest,
    a = w ++ rest /\ forallb p w = true
    /\ k (MState (rev w ++ b) rest cap) = Some res.
Proof.
  revert b. induction a as [|c a IH]; intros b; simpl.
  - intros Hk. exists [], []. auto.
  - destruct (p c) eqn:Hc.
    + destruct (starRun p k (c :: b) a cap) as [res'|] eqn:Hrun.
      * intros [= <-]. apply IH in Hrun as (w & rest & -> & Hw & Hk).
        exists (c :: w), rest. simpl. rewrite Hc, Hw, <- app_assoc. auto.
      * intros Hk. exists [], (c :: a). auto.
    + intros Hk. exists [], (c :: a). auto.
Qed.

(** The longest run wins when the continuation accepts it. *)
Lemma starRun_greedy (p : N -> bool) (k : mstate -> option mstate)
    (w rest b : list N) (cap : option jsstring) (res : mstate) :
  forallb p w = true ->
  headIs p rest = false ->
  k (MState (rev w ++ b) rest cap) = Some res ->
  starRun p k b (w ++ rest) cap = Some res.
Proof.
  revert b. induction w as [|x w IH]; intros b Hw Hrest Hk; simpl in *.
  - destruct rest as [|c rest]; simpl in *; [exact Hk|].
    rewrite Hrest. exact Hk.
  - apply andb_true_iff in Hw as [Hx Hw]. rewrite Hx.
    rewrite <- app_assoc in Hk. simpl in Hk.
    rewrite (IH (x :: b) Hw Hrest Hk). reflexivity.
Qed.

(** ** The shapes of a title line *)

Lemma forallb_ext {A} (f g : A -> bool) (l : list A) :
  (forall x, f x = g x) -> forallb f l = forallb g l.
Proof.
  intros Hfg. induction l as [|x l IH]; simpl; [reflexivity|].
  rewrite Hfg, IH. reflexivity.
Qed.

Lemma rmatch_Class (ci inv : bool) (cs : cset) (k : mstate -> option mstate)
    (b a : list N) (cap : option jsstring) :
  rmatch ci (Class inv cs) k (MState b a cap) =
  match a with
  | c :: rest =>
      if classAccepts ci inv cs c then k (MState (c :: b) rest cap) else None
  | [] => None
  end.
Proof. reflexivity. Qed.

Lemma classAccepts_plain (cs : cset) (c : N) :
  classAccepts false false cs c = cset_mem cs c.
Proof.
  unfold classAccepts, cset_test. simpl. rewrite orb_false_r.
  destruct (cset_mem cs c); reflexivity.
Qed.

Lemma classAccepts_not (cs : cset) (c : N) :
  classAccepts false true cs c = negb (cset_mem cs c).
Proof.
  unfold classAccepts, cset_test. simpl. rewrite orb_false_r.
  destruct (cset_mem cs c); reflexivity.
Qed.

Lemma rmatch_Chr (x : N) (k : mstate -> option mstate) (b a : list N)
    (cap : option jsstring) :
  rmatch false (Chr x) k (MState b a cap) =
  match a with
  | c :: rest => if c =? x then k (MState (c :: b) rest cap) else None
  | [] => None
  end.
Proof.
  unfold Chr. rewrite rmatch_Class. destruct a as [|c rest]; [reflexivity|].
  rewrite classAccepts_plain. reflexivity.
Qed.

Lemma test_anchored (r : regex) (line : jsstring) :
  test false (Seq Bol r) line =
  match rmatch false r Some (MState [] line None) with
  | Some _ => true
  | None => false
  end.
Proof.
  unfold test, exec. rewrite search_anchored.
  - change (rmatch false (Seq Bol r) Some (MState [] line None))
      with (rmatch false r Some (MState [] line None)).
    destruct (rmatch false r Some (MState [] line None)); reflexivity.
  - intros b a cap Hb. destruct b; [contradiction | reflexivity].
Qed.

Lemma test_numbered (line : jsstring) :
  test false re_numbered line = true <-> numberedLine line.
Proof.
  unfold re_numbered. rewrite test_anchored.
  change (rmatch false (Seq (Plus (Class false CDigit)) (Chr 46)) Some
            (MState [] line None))
    with (rmatch false (Class false CDigit)
            (rmatch false (Star (Class false CDigit))
               (rmatch false (Chr 46) Some)) (MState [] line None)).
  rewrite rmatch_Class. unfold numberedLine. split.
  - destruct line as [|c rest]; [discriminate|].
    rewrite classAccepts_plain. simpl cset_mem.
    destruct (is_digit c) eqn:Hc; [|discriminate].
    rewrite rmatch_Star_Class.
    destruct (starRun _ _ _ _ _) as [res|] eqn:Hrun; [|discriminate].
    intros _. apply starRun_Some_elim in Hrun as (w & rest' & -> & Hw & Hk).
    rewrite rmatch_Chr in Hk. destruct rest' as [|c' t]; [discriminate|].
    destruct (N.eqb_spec c' 46) as [-> | _]; [|discriminate].
    exists (c :: w), t. split; [discriminate|]. split; [|reflexivity].
    simpl. rewrite Hc. simpl.
    erewrite forallb_ext; [exact Hw|].
    intros x. symmetry. apply classAccepts_plain.
  - intros (d & t & Hne & Hd & ->). destruct d as [|c d]; [contradiction|].
    simpl in Hd. apply andb_true_iff in Hd as [Hc Hd].
    simpl app. cbv beta iota.
    rewrite classAccepts_plain. simpl cset_mem. rewrite Hc.
    rewrite rmatch_Star_Class.
    destruct (starRun_is_Some (classAccepts false false CDigit)
                (rmatch false (Chr 46) Some) d (46 :: t) [c] None)
      as [res ->]; [| |reflexivity].
    + erewrite forallb_ext; [exact Hd|]. intros x. apply classAccepts_plain.
    + rewrite rmatch_Chr. simpl. eauto.
Qed.

Lemma test_bullet (line : jsstring) :
  test false re_bullet line = headIs isBullet line.
Proof.
  unfold re_bullet. rewrite test_anchored, rmatch_Class.
  destruct line as [|c rest]; [reflexivity|].
  rewrite classAccepts_plain. simpl headIs. unfold isBullet.
  destruct (cset_mem bullet_class c); reflexivity.
Qed.

Lemma test_capital (line : jsstring) :
  test false re_capital line = headIs is_upper line.
Proof.
  unfold re_capital. rewrite test_anchored, rmatch_Class.
  destruct line as [|c rest]; [reflexivity|].
  rewrite classAccepts_plain. simpl.
  change ((65 <=? c) && (c <=? 90)) with (is_upper c).
  destruct (is_upper c); reflexivity.
Qed.

Lemma test_label (line : jsstring) :
  test false re_label line = true <-> labelledLine line.
Proof.
  unfold re_label. rewrite test_anchored.
  change (rmatch false
            (Seq (Class false (CRange 65 90))
               (Seq (Star (Class true (CChar 46))) (Chr 58)))
            Some (MState [] line None))
    with (rmatch false (Class false (CRange 65 90))
            (rmatch false (Star (Class true (CChar 46)))
               (rmatch false (Chr 58) Some)) (MState [] line None)).
  rewrite rmatch_Class. unfold labelledLine. split.
  - destruct line as [|c rest]; [discriminate|].
    rewrite classAccepts_plain.
    change (cset_mem (CRange 65 90) c) with (is_upper c).
    destruct (is_upper c) eqn:Hc; [|discriminate].
    rewrite rmatch_Star_Class.
    destruct (starRun _ _ _ _ _) as [res|] eqn:Hrun; [|discriminate].
    intros _. apply starRun_Some_elim in Hrun as (u & rest' & -> & Hu & Hk).
    rewrite rmatch_Chr in Hk. destruct rest' as [|c' v]; [discriminate|].
    destruct (N.eqb_spec c' 58) as [-> | _]; [|discriminate].
    exists c, u, v. split; [exact Hc|]. split; [|reflexivity].
    erewrite forallb_ext; [exact Hu|].
    intros x. symmetry. apply classAccepts_not.
  - intros (c & u & v & Hc & Hu & ->). cbv beta iota.
    rewrite classAccepts_plain.
    change (cset_mem (CRange 65 90) c) with (is_upper c). rewrite Hc.
    rewrite rmatch_Star_Class.
    destruct (starRun_is_Some (classAccepts false true (CChar 46))
                (rmatch false (Chr 58) Some) u (58 :: v) [c] None)
      as [res ->]; [| |reflexivity].
    + erewrite forallb_ext; [exact Hu|]. intros x. apply classAccepts_not.
    + rewrite rmatch_Chr. simpl. eauto.
Qed.

Lemma looksLikeTitle_spec (line : jsstring) :
  looksLikeTitle line = true <->
  numberedLine line
  \/ headIs isBullet line = true
  \/ labelledLine line
  \/ ((length line < 100)%nat /\ headIs is_upper line = true
      /\ endsWith 46 line = false).
Proof.
  unfold looksLikeTitle.
  rewrite !orb_true_iff, !andb_true_iff, negb_true_iff.
  rewrite test_numbered, test_bullet, test_label, test_capital.
  rewrite Nat.ltb_lt. tauto.
Qed.

(** X14: [looksLikeTitle] accepts exactly four shapes of line: a number followed
    by a period; a leading bullet glyph; a capital letter followed, with no
    period in between, by a colon; and a line of fewer than 100 code units
    that starts with a capital letter and does not end with a period. *)
Theorem looksLikeTitle_shapes (line : jsstring) :
  looksLikeTitle line = true <->
  (exists d t, d <> [] /\ forallb is_digit d = true /\ line = d ++ 46 :: t)
  \/ headIs isBullet line = true
  \/ (exists c u v,
        is_upper c = true
        /\ forallb (fun x => negb (x =? 46)) u = true
        /\ line = c :: u ++ 58 :: v)
  \/ ((length line < 100)%nat /\ headIs is_upper line = true
      /\ endsWith 46 line = false).
Proof. exact (looksLikeTitle_spec line). Qed.

(** X15: A line that starts with a capital letter and has no colon is a
    continuation line, not a title, when it ends with a period or has 100
    code units or more. *)
Theorem looksLikeTitle_sentence (line : jsstring) :
  headIs is_upper line = true ->
  58 ∉ line ->
  endsWith 46 line = true \/ (100 <= length line)%nat ->
  looksLikeTitle line = false.
Proof.
  intros Hhead Hcolon Hend.
  destruct (looksLikeTitle line) eqn:Htitle; [|reflexivity].
  exfalso. apply looksLikeTitle_spec in Htitle
    as [(d & t & Hne & Hd & ->) | [Hb | [(c & u & v & _ & _ & ->) | H]]].
  - destruct d as [|c d]; [contradiction|]. simpl in Hhead, Hd.
    apply andb_true_iff in Hd as [Hc _].
    unfold is_upper, is_digit in *.
    destruct (N.leb_spec 65 c), (N.leb_spec c 57), (N.leb_spec 48 c);
      simpl in *; try discriminate; lia.
  - destruct line as [|c rest]; [discriminate|]. simpl in Hhead, Hb.
    unfold isBullet, bullet_class, cset_mem, is_upper, bullet in *.
    destruct (N.eqb_spec c 8226), (N.eqb_spec c 45), (N.eqb_spec c 42),
      (N.leb_spec 65 c), (N.leb_spec c 90);
      simpl in *; try discriminate; lia.
  - apply Hcolon. right. apply elem_of_app. right. left.
  - destruct H as (Hlen & _ & Hdot). destruct Hend as [Hend | Hlong];
      [congruence | lia].
Qed.

(** ** What [cleanTitle] removes *)

Lemma trimStart_blank_app (ws y : jsstring) :
  blank ws = true -> trimStart (ws ++ y) = trimStart y.
Proof.
  induction ws as [|c ws IH]; simpl; [reflexivity|].
  intros H. apply andb_true_iff in H as [Hc Hws]. rewrite Hc. exact (IH Hws).
Qed.

Lemma trimStart_app_blank (x ws : jsstring) :
  blank ws = true ->
  trimStart (x ++ ws) = if blank x then [] else trimStart x ++ ws.
Proof.
  intros Hws. induction x as [|c x IH]; simpl.
  - now apply trimStart_blank.
  - destruct (is_space c); simpl; [exact IH | reflexivity].
Qed.

Lemma trim_app_blank (x ws : jsstring) :
  blank ws = true -> trim (x ++ ws) = trim x.
Proof.
  intros Hws. unfold trim, trimEnd. rewrite (trimStart_app_blank x ws Hws).
  destruct (blank x) eqn:Hx.
  - apply trimStart_blank in Hx. rewrite Hx. reflexivity.
  - rewrite rev_app_distr, trimStart_blank_app; [reflexivity|].
    rewrite blank_rev. exact Hws.
Qed.

Lemma trimStart_headIs (s : jsstring) : headIs is_space (trimStart s) = false.
Proof.
  destruct (trimStart s) as [|c r] eqn:Hs; [reflexivity|].
  exact (trimStart_head s c r Hs).
Qed.

(** A trimmed text neither starts nor ends with white space. *)
Lemma trim_edges (s : jsstring) :
  headIs is_space (trim s) = false /\ headIs is_space (rev (trim s)) = false.
Proof.
  unfold trim, trimEnd. rewrite rev_involutive. split; [|apply trimStart_headIs].
  destruct (trimStart_decompose (rev (trimStart s))) as (ws & Hdec & Hws).
  set (u := trimStart (rev (trimStart s))) in *.
  apply (f_equal (@rev N)) in Hdec.
  rewrite rev_involutive, rev_app_distr in Hdec.
  destruct (rev u) as [|c r] eqn:Hu; [reflexivity|].
  simpl. pose proof (trimStart_headIs s) as Hhead.
  rewrite Hdec in Hhead. exact Hhead.
Qed.

Lemma is_space_notHyphen (c : N) : is_space c = true -> notHyphen c = true.
Proof.
  unfold notHyphen. destruct (N.eqb_spec c 45) as [-> | _];
    [discriminate | reflexivity].
Qed.

Lemma last_hyphen_unique (x1 x2 y1 y2 : jsstring) :
  x1 ++ 45 :: y1 = x2 ++ 45 :: y2 ->
  forallb notHyphen y1 = true -> forallb notHyphen y2 = true ->
  x1 = x2 /\ y1 = y2.
Proof.
  revert x2. induction x1 as [|c x1 IH]; intros x2 Heq H1 H2.
  - destruct x2 as [|c x2]; simpl in Heq.
    + injection Heq as ->. auto.
    + injection Heq as <- ->. rewrite forallb_app in H1.
      apply andb_true_iff in H1 as [_ H1]. simpl in H1. discriminate.
  - destruct x2 as [|c' x2]; simpl in Heq.
    + injection Heq as -> <-. rewrite forallb_app in H2.
      apply andb_true_iff in H2 as [_ H2]. simpl in H2. discriminate.
    + injection Heq as <- Heq. destruct (IH x2 Heq H1 H2) as [-> ->]. auto.
Qed.

Lemma rmatch_source_tail (b a : list N) :
  rmatch false re_source_tail Some (MState b a None) =
  starRun (classAccepts false false CSpace)
    (rmatch false (Chr 45)
       (rmatch false (Star (Class false CSpace))
          (rmatch false (Star (Class true (CChar 45)))
             (rmatch false Eol Some))))
    b a None.
Proof. unfold re_source_tail. rewrite <- rmatch_Star_Class. reflexivity. Qed.

Lemma source_tail_elim (b a : list N) (st : mstate) :
  rmatch false re_source_tail Some (MState b a None) = Some st ->
  exists ws q,
    a = ws ++ 45 :: q /\ blank ws = true /\ forallb notHyphen q = true
    /\ after st = [].
Proof.
  rewrite rmatch_source_tail. intros Hrun.
  apply starRun_Some_elim in Hrun as (ws & rest & -> & Hws & Hk).
  rewrite rmatch_Chr in Hk. destruct rest as [|c rest]; [discriminate|].
  destruct (N.eqb_spec c 45) as [-> | _]; [|discriminate].
  rewrite rmatch_Star_Class in Hk.
  apply starRun_Some_elim in Hk as (ws2 & rest2 & -> & Hws2 & Hk).
  rewrite rmatch_Star_Class in Hk.
  apply starRun_Some_elim in Hk as (nd & rest3 & -> & Hnd & Hk).
  destruct rest3 as [|c3 rest3]; [|discriminate].
  injection Hk as <-.
  exists ws, (ws2 ++ nd ++ []). split; [reflexivity|].
  split; [unfold blank; erewrite forallb_ext; [exact Hws|];
          intros x; symmetry; apply (classAccepts_plain CSpace)|].
  split; [|reflexivity].
  rewrite app_nil_r, forallb_app. apply andb_true_iff. split.
  - apply forallb_forall. intros x Hx. apply is_space_notHyphen.
    rewrite forallb_forall in Hws2. rewrite <- (classAccepts_plain CSpace).
    exact (Hws2 x Hx).
  - erewrite forallb_ext; [exact Hnd|].
    intros x. symmetry. apply classAccepts_not.
Qed.

Lemma source_tail_intro (b q : list N) :
  forallb notHyphen q = true ->
  is_Some (rmatch false re_source_tail Some (MState b (45 :: q) None)).
Proof.
  intros Hq. rewrite rmatch_source_tail.
  apply (starRun_is_Some _ _ [] (45 :: q)); [reflexivity|].
  simpl rev. simpl app. rewrite rmatch_Chr. cbv beta iota.
  rewrite N.eqb_refl. cbv iota. rewrite rmatch_Star_Class.
  apply (starRun_is_Some _ _ [] q); [reflexivity|].
  simpl rev. simpl app. rewrite rmatch_Star_Class.
  rewrite <- (app_nil_r q) at 1.
  apply starRun_is_Some.
  - erewrite forallb_ext; [exact Hq|]. intros x. apply classAccepts_not.
  - simpl. eauto.
Qed.

(** Without a hyphen the third replacement of [cleanTitle] finds nothing. *)
Lemma replace_source_tail_none (s : jsstring) :
  forallb notHyphen s = true ->
  replace_empty false re_source_tail s = s.
Proof.
  intros Hs. unfold replace_empty, exec.
  destruct (search false re_source_tail [] s) as [m|] eqn:Hm; [|reflexivity].
  exfalso.
  apply search_Some_elim in Hm as (pre & suf & st & -> & Hst & _).
  rewrite app_nil_r in Hst.
  apply source_tail_elim in Hst as (ws & q & -> & _ & _ & _).
  rewrite !forallb_app in Hs. apply andb_true_iff in Hs as [_ Hs].
  apply andb_true_iff in Hs as [_ Hs]. simpl in Hs. discriminate.
Qed.

(** With a hyphen it cuts the text at the white space before the last
    hyphen. *)
Lemma replace_source_tail_cut (p q : jsstring) :
  forallb notHyphen q = true ->
  exists pre ws,
    p = pre ++ ws /\ blank ws = true
    /\ replace_empty false re_source_tail (p ++ 45 :: q) = pre.
Proof.
  intros Hq. unfold replace_empty, exec.
  destruct (search false re_source_tail [] (p ++ 45 :: q)) as [m|] eqn:Hm.
  - apply search_Some_elim in Hm as (pre & suf & st & Heq & Hst & ->).
    rewrite app_nil_r in Hst.
    apply source_tail_elim in Hst as (ws & q' & -> & Hws & Hq' & Hafter).
    rewrite app_assoc in Heq.
    destruct (last_hyphen_unique _ _ _ _ Heq Hq Hq') as [-> _].
    exists pre, ws. split; [reflexivity|]. split; [exact Hws|].
    simpl. rewrite Hafter. apply app_nil_r.
  - exfalso.
    assert (Hsome : is_Some (search false re_source_tail [] (p ++ 45 :: q))).
    { apply search_is_Some. exists p, (45 :: q). split; [reflexivity|].
      apply source_tail_intro. exact Hq. }
    rewrite Hm in Hsome. destruct Hsome as [x Hx]. discriminate.
Qed.

Lemma exec_numbering (s : jsstring) :
  exec false re_numbering s =
  match rmatch false (Class false CDigit)
          (rmatch false (Star (Class false CDigit))
             (rmatch false (Chr 46)
                (rmatch false (Star (Class false CSpace)) Some)))
          (MState [] s None) with
  | Some st => Some (MatchResult [] (after st) (capture st))
  | None => None
  end.
Proof.
  unfold exec. rewrite search_anchored; [reflexivity|].
  intros b a cap Hb. destruct b; [contradiction | reflexivity].
Qed.

Lemma exec_bullet_lead (s : jsstring) :
  exec false re_bullet_lead s =
  match rmatch false (Class false bullet_class)
          (rmatch false (Star (Class false CSpace)) Some)
          (MState [] s None) with
  | Some st => Some (MatchResult [] (after st) (capture st))
  | None => None
  end.
Proof.
  unfold exec. rewrite search_anchored; [reflexivity|].
  intros b a cap Hb. destruct b; [contradiction | reflexivity].
Qed.

(** The white space after a marker is consumed up to the first code unit
    that is not white space. *)
Lemma rmatch_spaces (b t : list N) :
  exists b',
    rmatch false (Star (Class false CSpace)) Some (MState b t None)
    = Some (MState b' (trimStart t) None).
Proof.
  rewrite rmatch_Star_Class.
  destruct (trimStart_decompose t) as (ws & Ht & Hws).
  exists (rev ws ++ b). rewrite Ht at 1.
  apply starRun_greedy.
  - unfold blank in Hws. erewrite forallb_ext; [exact Hws|].
    intros x. apply classAccepts_plain.
  - pose proof (trimStart_headIs t) as Hhead.
    destruct (trimStart t) as [|c r]; [reflexivity|].
    cbn [headIs] in *. rewrite classAccepts_plain. exact Hhead.
  - reflexivity.
Qed.

Lemma replace_numbering_none (s : jsstring) :
  headIs is_digit s = false -> replace_empty false re_numbering s = s.
Proof.
  intros Hhead. unfold replace_empty. rewrite exec_numbering, rmatch_Class.
  destruct s as [|c s]; [reflexivity|].
  rewrite classAccepts_plain. simpl in Hhead. simpl cset_mem.
  rewrite Hhead. reflexivity.
Qed.

Lemma replace_bullet_none (s : jsstring) :
  headIs isBullet s = false -> replace_empty false re_bullet_lead s = s.
Proof.
  intros Hhead. unfold replace_empty. rewrite exec_bullet_lead, rmatch_Class.
  destruct s as [|c s]; [reflexivity|].
  rewrite classAccepts_plain. simpl in Hhead. unfold isBullet in Hhead.
  rewrite Hhead. reflexivity.
Qed.

Lemma replace_numbering_strip (d t : jsstring) :
  d <> [] -> forallb is_digit d = true ->
  replace_empty false re_numbering (d ++ 46 :: t) = trimStart t.
Proof.
  intros Hne Hd. destruct d as [|c d]; [contradiction|].
  simpl in Hd. apply andb_true_iff in Hd as [Hc Hd].
  unfold replace_empty. rewrite exec_numbering, rmatch_Class.
  simpl app. cbv beta iota. rewrite classAccepts_plain. simpl cset_mem.
  rewrite Hc. rewrite rmatch_Star_Class.
  destruct (rmatch_spaces (46 :: rev d ++ [c]) t) as [b' Hsp].
  rewrite (starRun_greedy _ _ d (46 :: t) [c] None
             (MState b' (trimStart t) None)).
  - reflexivity.
  - erewrite forallb_ext; [exact Hd|]. intros x. apply classAccepts_plain.
  - reflexivity.
  - rewrite rmatch_Chr. cbv beta iota. rewrite N.eqb_refl. exact Hsp.
Qed.

Lemma replace_bullet_strip (c : N) (t : jsstring) :
  isBullet c = true ->
  replace_empty false re_bullet_lead (c :: t) = trimStart t.
Proof.
  intros Hc. unfold replace_empty. rewrite exec_bullet_lead, rmatch_Class.
  rewrite classAccepts_plain. unfold isBullet in Hc. rewrite Hc.
  destruct (rmatch_spaces [c] t) as [b' ->]. reflexivity.
Qed.

Lemma markerStart_false (s : jsstring) :
  headIs markerStart s = false ->
  headIs is_digit s = false /\ headIs isBullet s = false.
Proof.
  destruct s as [|c s]; [auto|]. simpl. unfold markerStart.
  intros H. apply orb_false_iff in H. exact H.
Qed.

Lemma isBullet_not_digit (c : N) : isBullet c = true -> is_digit c = false.
Proof.
  unfold isBullet, bullet_class, cset_mem, bullet, is_digit.
  destruct (N.eqb_spec c 8226), (N.eqb_spec c 45), (N.eqb_spec c 42),
    (N.leb_spec 48 c), (N.leb_spec c 57);
    simpl; try discriminate; try reflexivity; lia.
Qed.

(** Without a leading marker [cleanTitle] is the third replacement and the
    final trim. *)
Lemma cleanTitle_unmarked (s : jsstring) :
  headIs markerStart s = false ->
  cleanTitle s = trim (replace_empty false re_source_tail s).
Proof.
  intros Hhead. apply markerStart_false in Hhead as [Hd Hb].
  unfold cleanTitle.
  rewrite (replace_numbering_none s Hd), (replace_bullet_none s Hb).
  reflexivity.
Qed.

(** X16: The cleaned title neither starts nor ends with white space. *)
Theorem cleanTitle_trimmed (title : jsstring) :
  headIs is_space (cleanTitle title) = false
  /\ headIs is_space (rev (cleanTitle title)) = false.
Proof. unfold cleanTitle. apply trim_edges. Qed.

(** X17: For a line without a leading marker, [cleanTitle] keeps the text before
    the last hyphen, trimmed, and drops the hyphen with all that follows,
    also when the hyphen stands inside a word; a line without a hyphen is
    only trimmed. *)
Theorem cleanTitle_last_hyphen (title : jsstring) :
  headIs markerStart title = false ->
  (forallb notHyphen title = true -> cleanTitle title = trim title)
  /\ (forall p q,
         title = p ++ 45 :: q -> forallb notHyphen q = true ->
         cleanTitle title = trim p).
Proof.
  intros Hhead. rewrite (cleanTitle_unmarked title Hhead). split.
  - intros Hplain. rewrite (replace_source_tail_none title Hplain).
    reflexivity.
  - intros p q -> Hq.
    destruct (replace_source_tail_cut p q Hq) as (pre & ws & Hp & Hws & ->).
    rewrite Hp. symmetry. apply trim_app_blank. exact Hws.
Qed.

(** X18: One leading marker, a number with its period or a bullet glyph, is
    removed together with the white space after it: the cleaned title of
    the line is the cleaned title of what follows the marker. *)
Theorem cleanTitle_marker (marker t : jsstring) :
  (exists d, d <> [] /\ forallb is_digit d = true /\ marker = d ++ [46])
  \/ (exists c, isBullet c = true /\ marker = [c]) ->
  headIs markerStart (trimStart t) = false ->
  cleanTitle (marker ++ t) = cleanTitle (trimStart t).
Proof.
  intros Hmarker Hrest.
  rewrite (cleanTitle_unmarked (trimStart t) Hrest).
  apply markerStart_false in Hrest as [Hd Hb].
  unfold cleanTitle.
  destruct Hmarker as [(d & Hne & Hdig & ->) | (c & Hc & ->)].
  - rewrite <- app_assoc. simpl app.
    rewrite (replace_numbering_strip d t Hne Hdig).
    rewrite (replace_bullet_none _ Hb). reflexivity.
  - simpl app. rewrite replace_numbering_none
      by (simpl; apply isBullet_not_digit; exact Hc).
    rewrite (replace_bullet_strip c t Hc). reflexivity.
Qed.

(** ** What a match consumes *)

(** A successful match of [r] consumes a stretch of the input made of code
    units its classes accept, and hands the rest to the continuation. *)
Lemma rmatch_consumes (P : N -> bool) (ci : bool) (r : regex) :
  classesWithin P ci r ->
  forall k st res,
    rmatch ci r k st = Some res ->
    exists w rest cap,
      after st = w ++ rest /\ forallb P w = true
      /\ k (MState (rev w ++ before st) rest cap) = Some res.
Proof.
  induction r as [| inv cs | r1 IH1 r2 IH2 | r1 IH1 r2 IH2 | r' IH | r' IH
                  | | | ]; intros Hin k st res Hrun; destruct st as [b a c];
    cbn [rmatch before after capture] in Hrun.
  - exists [], a, c. auto.
  - destruct a as [|x a]; [discriminate|].
    fold (classAccepts ci inv cs x) in Hrun.
    destruct (classAccepts ci inv cs x) eqn:Hx; [|discriminate].
    exists [x], a, c. simpl. rewrite (Hin x Hx). auto.
  - destruct Hin as [Hin1 Hin2].
    apply (IH1 Hin1) in Hrun as (w1 & rest1 & c1 & Ha & Hw1 & Hrun).
    apply (IH2 Hin2) in Hrun as (w2 & rest2 & c2 & Ha2 & Hw2 & Hrun).
    simpl in Ha, Ha2. subst a rest1.
    exists (w1 ++ w2), rest2, c2. simpl in *.
    rewrite <- app_assoc, forallb_app, Hw1, Hw2, rev_app_distr, <- app_assoc.
    auto.
  - destruct Hin as [Hin1 Hin2].
    destruct (rmatch ci r1 k (MState b a c)) as [res1|] eqn:H1.
    + injection Hrun as ->. exact (IH1 Hin1 k _ _ H1).
    + exact (IH2 Hin2 k _ _ Hrun).
  - simpl in Hin. revert Hrun. generalize (length a).
    intros n. revert b a c. induction n as [|n IHn]; intros b a c Hrun.
    + exists [], a, c. auto.
    + destruct (rmatch ci r' _ (MState b a c)) as [res1|] eqn:H1.
      * injection Hrun as ->.
        apply (IH Hin) in H1 as (w1 & rest1 & c1 & Ha & Hw1 & Hk).
        simpl in Ha. cbn [before after] in Hk.
        destruct (length rest1 <? length a)%nat; [|discriminate].
        apply IHn in Hk as (w2 & rest2 & c2 & Ha2 & Hw2 & Hk).
        simpl in Ha2. subst a rest1.
        exists (w1 ++ w2), rest2, c2. simpl in *.
        rewrite <- app_assoc, forallb_app, Hw1, Hw2, rev_app_distr,
          <- app_assoc. auto.
      * exists [], a, c. auto.
  - simpl in Hin.
    apply (IH Hin) in Hrun as (w & rest & c1 & Ha & Hw & Hk).
    simpl in Ha. subst a. cbn [before after] in Hk.
    exists w, rest. eexists. split; [reflexivity|]. split; [exact Hw|].
    exact Hk.
  - destruct b; [|discriminate]. exists [], a, c. auto.
  - destruct a; [|discriminate]. exists [], [], c. auto.
  - destruct (xorb _ _); [|discriminate]. exists [], a, c. auto.
Qed.

(** The text of the capture group is the stretch the group consumed. *)
Lemma rmatch_Group_capture (P : N -> bool) (ci : bool) (r : regex)
    (k : mstate -> option mstate) (st res : mstate) :
  classesWithin P ci r ->
  rmatch ci (Group r) k st = Some res ->
  exists w rest,
    after st = w ++ rest /\ forallb P w = true
    /\ k (MState (rev w ++ before st) rest (Some w)) = Some res.
Proof.
  intros Hin Hrun. destruct st as [b a c].
  cbn [rmatch before after capture] in Hrun.
  apply (rmatch_consumes P ci r Hin) in Hrun
    as (w & rest & c1 & Ha & Hw & Hk).
  simpl in Ha. subst a. cbn [before after] in Hk.
  exists w, rest. split; [reflexivity|]. split; [exact Hw|].
  rewrite length_app in Hk.
  replace (length w + length rest - length rest)%nat with (length w) in Hk
    by lia.
  rewrite take_app_length in Hk. exact Hk.
Qed.

Lemma classesWithin_any (ci : bool) (r : regex) :
  classesWithin (fun _ => true) ci r.
Proof. induction r; simpl; auto. Qed.

(** ** What [extractSource] returns *)

Lemma forallb_rev {A} (p : A -> bool) (l : list A) :
  forallb p (rev l) = forallb p l.
Proof.
  induction l as [|x l IH]; simpl; [reflexivity|].
  rewrite forallb_app, IH. simpl. rewrite andb_true_r. apply andb_comm.
Qed.

Lemma forallb_trimStart (p : N -> bool) (s : jsstring) :
  forallb p s = true -> forallb p (trimStart s) = true.
Proof.
  destruct (trimStart_decompose s) as (ws & Hs & _).
  intros H. rewrite Hs, forallb_app in H.
  apply andb_true_iff in H as [_ H]. exact H.
Qed.

Lemma forallb_trim (p : N -> bool) (s : jsstring) :
  forallb p s = true -> forallb p (trim s) = true.
Proof.
  intros H. unfold trim, trimEnd. rewrite forallb_rev.
  apply forallb_trimStart. rewrite forallb_rev.
  apply forallb_trimStart. exact H.
Qed.

Lemma letterOrSpace_upper (c : N) :
  letterOrSpace (ascii_upper c) = true -> letterOrSpace c = true.
Proof.
  unfold ascii_upper, letterOrSpace.
  destruct (is_lower c) eqn:Hc; [|intros H; rewrite Hc in H; exact H].
  intros _. rewrite orb_true_r. reflexivity.
Qed.

Lemma letterOrSpace_lower (c : N) :
  letterOrSpace (ascii_lower c) = true -> letterOrSpace c = true.
Proof.
  unfold ascii_lower, letterOrSpace.
  destruct (is_upper c) eqn:Hc; [|intros H; rewrite Hc in H; exact H].
  intros _. reflexivity.
Qed.

Lemma letters_space_within (ci : bool) (c : N) :
  classAccepts ci false (CUnion letters CSpace) c = true ->
  letterOrSpace c = true.
Proof.
  unfold classAccepts, cset_test. rewrite xorb_false_l.
  change (cset_mem (CUnion letters CSpace)) with letterOrSpace.
  intros H. apply orb_true_iff in H as [H | H]; [exact H|].
  apply andb_true_iff in H as [_ H].
  apply orb_true_iff in H as [H | H];
    [now apply letterOrSpace_upper | now apply letterOrSpace_lower].
Qed.

Lemma upper_within (c : N) :
  classAccepts false false (CRange 65 90) c = true -> letterOrSpace c = true.
Proof.
  rewrite classAccepts_plain. unfold letterOrSpace.
  change (cset_mem (CRange 65 90) c) with (is_upper c).
  intros ->. reflexivity.
Qed.

Lemma lower_within (c : N) :
  classAccepts false false (CRange 97 122) c = true -> letterOrSpace c = true.
Proof.
  rewrite classAccepts_plain. unfold letterOrSpace.
  change (cset_mem (CRange 97 122) c) with (is_lower c).
  intros ->. rewrite orb_true_r. reflexivity.
Qed.

Lemma space_within (c : N) :
  classAccepts false false CSpace c = true -> letterOrSpace c = true.
Proof.
  rewrite classAccepts_plain. unfold letterOrSpace. simpl.
  intros ->. apply orb_true_r.
Qed.

(** Both patterns of [extractSource] end in a capture group of letters and
    white space followed by the end of the text. *)
Lemma source_group_suffix (ci : bool) (lead group : regex) (text : jsstring)
    (m : rmatch_result) :
  classesWithin letterOrSpace ci group ->
  exec ci (Seq lead (Seq (Star (Class false CSpace)) (Seq (Group group) Eol)))
    text = Some m ->
  exists pre w,
    text = pre ++ w /\ forallb letterOrSpace w = true
    /\ m_group1 m = Some w.
Proof.
  intros Hgroup Hexec. unfold exec in Hexec.
  apply search_Some_elim in Hexec as (pre & suf & st & -> & Hst & ->).
  change (rmatch ci (Seq lead (Seq ?sp (Seq (Group group) Eol))) Some ?st0)
    with (rmatch ci lead
            (rmatch ci sp (rmatch ci (Group group) (rmatch ci Eol Some))) st0)
    in Hst.
  apply (rmatch_consumes _ ci lead (classesWithin_any ci lead)) in Hst
    as (w1 & rest1 & c1 & Ha1 & _ & Hst).
  apply (rmatch_consumes _ ci _ (classesWithin_any ci _)) in Hst
    as (w2 & rest2 & c2 & Ha2 & _ & Hst).
  apply (rmatch_Group_capture letterOrSpace ci group _ _ _ Hgroup) in Hst
    as (w & rest3 & Ha3 & Hw & Hst).
  simpl in Ha1, Ha2, Ha3. subst suf rest1 rest2.
  cbn [rmatch after] in Hst. destruct rest3 as [|x rest3]; [|discriminate].
  injection Hst as <-. simpl.
  exists (pre ++ w1 ++ w2), w. rewrite app_nil_r, <- !app_assoc. auto.
Qed.

(** X19: Whatever [extractSource] returns is the trimmed form of an ending of
    the text that is made of Basic Latin letters and white space only; so
    the source has no digit and no punctuation. *)
Theorem extractSource_suffix (text s : jsstring) :
  extractSource text = Some s ->
  (exists pre w,
      text = pre ++ w /\ forallb letterOrSpace w = true /\ s = trim w)
  /\ forallb letterOrSpace s = true.
Proof.
  unfold extractSource. intros Hs.
  assert (Hm : exists m pre w,
             text = pre ++ w /\ forallb letterOrSpace w = true
             /\ m_group1 m = Some w /\ s = trim (default [] (m_group1 m))).
  { destruct (exec true re_source_word text) as [m|] eqn:H1.
    - injection Hs as <-.
      apply (source_group_suffix true) in H1 as (pre & w & Ht & Hw & Hg).
      + exists m, pre, w. auto.
      + unfold Plus. cbn [classesWithin].
        split; apply letters_space_within.
    - destruct (exec false re_source_dash text) as [m|] eqn:H2;
        [|discriminate].
      injection Hs as <-.
      apply (source_group_suffix false) in H2 as (pre & w & Ht & Hw & Hg).
      + exists m, pre, w. auto.
      + unfold re_capitalized, Plus. cbn [classesWithin].
        repeat split;
          first [ apply space_within | apply upper_within
                | apply lower_within ]. }
  destruct Hm as (m & pre & w & Ht & Hw & Hg & ->). rewrite Hg. simpl.
  split; [exists pre, w; auto|]. apply forallb_trim. exact Hw.
Qed.

(** ** The chat handlers *)

Section BotFacts.

Variable env : Env.
Variable newsService : NewsService.
Variable toLocaleString : jsstring -> jsstring.

Lemma fetchAndReply_returns (notice apology : jsstring)
    (call : M NewsResponse) (t : nat) (r : NewsResponse) (t' : nat) :
  call t = (Return r, t') ->
  fetchAndReply toLocaleString notice apology call t =
  ([notice; formatNewsResponse toLocaleString r], t').
Proof. intros Hcall. unfold fetchAndReply. rewrite Hcall. reflexivity. Qed.

(** X20: The handlers of [/news] and of the category commands always answer with
    their notice followed by the formatted result of the service: the
    [catch] block with its apology is never reached. *)
Theorem command_handlers_reply_with_news (category : jsstring) (t : nat) :
  (exists r t',
      getLatestNews env newsService (VString (str "latest news today")) 5 t
      = (Return r, t')
      /\ onNews env newsService toLocaleString t =
         ([newspaper ++ str " Fetching latest news...";
           formatNewsResponse toLocaleString r], t'))
  /\ (exists r t',
         getNewsByCategory env newsService category 5 t = (Return r, t')
         /\ onCategory env newsService toLocaleString category t =
            ([categoryEmoji category ++ str " Fetching " ++ category
              ++ str " news...";
              formatNewsResponse toLocaleString r], t')).
Proof.
  split.
  - destruct (getLatestNews_returns env newsService
                (VString (str "latest news today")) 5 t)
      as (r & t' & Hrun & _).
    exists r, t'. split; [exact Hrun|].
    unfold onNews. apply fetchAndReply_returns. exact Hrun.
  - destruct (getNewsByCategory_returns env newsService category 5 t)
      as (r & t' & Hrun).
    exists r, t'. split; [exact Hrun|].
    unfold onCategory. apply fetchAndReply_returns. exact Hrun.
Qed.

(** X21: The handler of plain messages: nothing for a text that starts with a
    slash; for any other text of more than three code units the notice and
    the formatted result of [getLatestNews(text, 3)], never the apology;
    and, without reading the clock or calling the service, one echo reply
    for a shorter text and for a message that has no text. *)
Theorem onMessage_replies (messageText : option jsstring) (t : nat) :
  let text := default [] messageText in
  (headIs (fun c => c =? 47) text = true ->
   onMessage env newsService toLocaleString messageText t = ([], t))
  /\ (headIs (fun c => c =? 47) text = false -> (3 < length text)%nat ->
      exists r t',
        getLatestNews env newsService (VString text) 3 t = (Return r, t')
        /\ onMessage env newsService toLocaleString messageText t =
           ([magnifier ++ str " Searching for news about " ++ quote
             ++ text ++ quote ++ str "...";
             formatNewsResponse toLocaleString r], t'))
  /\ (headIs (fun c => c =? 47) text = false -> (length text <= 3)%nat ->
      exists reply,
        onMessage env newsService toLocaleString messageText t = ([reply], t)
        /\ includes (str "You said: " ++ quote ++ printed messageText ++ quote)
             reply).
Proof.
  intros text. unfold onMessage. fold text. split; [|split].
  - intros ->. reflexivity.
  - intros -> Hlen.
    assert (Htruthy : truthy messageText = true).
    { subst text. destruct messageText as [[|c s]|]; simpl in *;
        [lia | reflexivity | lia]. }
    rewrite Htruthy. simpl andb.
    destruct (Nat.ltb_spec 3 (length text)) as [_ | Hle]; [|lia].
    destruct (getLatestNews_returns env newsService (VString text) 3 t)
      as (r & t' & Hrun & _).
    exists r, t'. split; [exact Hrun|].
    rewrite (fetchAndReply_returns _ _ _ t r t' Hrun).
    assert (Hprinted : printed messageText = text).
    { destruct messageText; [reflexivity | discriminate]. }
    rewrite Hprinted. reflexivity.
  - intros -> Hlen.
    destruct (Nat.ltb_spec 3 (length text)) as [Hlt | _]; [lia|].
    rewrite andb_false_r.
    eexists. split; [reflexivity|].
    exists [], ([10; 10]
      ++ str "Try sending me a topic to get news about it, or use /help to see available commands! "
      ++ smilingFace).
    simpl app. rewrite <- !app_assoc. reflexivity.
Qed.

(** [forEach] only appends to the message. *)
Lemma forEachArticle_appends (articles : list NewsArticle) (index : nat)
    (message : jsstring) :
  exists tail, forEachArticle index articles message = message ++ tail.
Proof.
  revert index message.
  induction articles as [|a l IH]; intros index message; simpl.
  - exists []. symmetry. apply app_nil_r.
  - destruct (IH (S index) (message ++ formatArticle index a)) as [tail ->].
    exists (formatArticle index a ++ tail). symmetry. apply app_assoc.
Qed.

(** Every article has its block in the message. *)
Lemma forEachArticle_block (articles : list NewsArticle) (index : nat)
    (message : jsstring) (a : NewsArticle) :
  a ∈ articles ->
  exists j, includes (formatArticle j a)
              (forEachArticle index articles message).
Proof.
  revert index message.
  induction articles as [|b l IH]; intros index message Hin; simpl.
  - inversion Hin.
  - apply elem_of_cons in Hin as [<- | Hin].
    + destruct (forEachArticle_appends l (S index)
                  (message ++ formatArticle index a)) as [tail ->].
      exists index, message, tail. symmetry. apply app_assoc.
    + exact (IH (S index) _ Hin).
Qed.

Lemma includes_trans (x y z : jsstring) :
  includes x y -> includes y z -> includes x z.
Proof.
  intros (p1 & q1 & ->) (p2 & q2 & ->).
  exists (p2 ++ p1), (q1 ++ q2). rewrite <- !app_assoc. reflexivity.
Qed.

Lemma includes_after (x y z : jsstring) :
  includes x z -> includes x (y ++ z).
Proof.
  intros (p & q & ->). exists (y ++ p), q. apply app_assoc.
Qed.

Lemma includes_head (x z : jsstring) : includes x (x ++ z).
Proof. exists [], z. reflexivity. Qed.

Lemma formatArticle_summary (j : nat) (a : NewsArticle) (s : jsstring) :
  summary a = Some s -> s <> [] -> includes s (formatArticle j a).
Proof.
  intros Hs Hne. unfold formatArticle. rewrite Hs.
  apply nonempty_true in Hne.
  change (truthy (Some s)) with (nonempty s). rewrite Hne.
  change (default [] (Some s)) with s.
  do 4 apply includes_after. apply includes_head.
Qed.

(** X23: The summary of every article of a result of the service is printed in
    the formatted message: the text [No summary available] never stands in
    for one. *)
Theorem formatNewsResponse_prints_summaries (query : jsvalue) (limit : Z)
    (t : nat) :
  exists r t',
    getLatestNews env newsService query limit t = (Return r, t')
    /\ forall a, a ∈ r_articles r ->
         exists s, summary a = Some s /\ s <> []
                   /\ includes s (formatNewsResponse toLocaleString r).
Proof.
  destruct (getLatestNews_summarised env newsService query limit t)
    as (r & t' & Hrun & Hall).
  exists r, t'. split; [exact Hrun|]. intros a Ha.
  rewrite Forall_forall in Hall. destruct (Hall a Ha) as (s & Hs & Hne).
  exists s. split; [exact Hs|]. split; [exact Hne|].
  unfold formatNewsResponse.
  destruct (r_articles r) as [|b l] eqn:Hl; [inversion Ha|].
  simpl Nat.eqb. cbv iota.
  match goal with
  | |- includes _ (forEachArticle 0 _ ?header) =>
      destruct (forEachArticle_block (b :: l) 0 header a Ha) as [j Hblock]
  end.
  exact (includes_trans _ _ _ (formatArticle_summary j a s Hs Hne) Hblock).
Qed.

End BotFacts.

(** ** The message for an empty result *)

Lemma formatNewsResponse_no_news (toLocaleString : jsstring -> jsstring)
    (r : NewsResponse) :
  formatNewsResponse toLocaleString r = noNewsMessage <-> r_articles r = [].
Proof.
  unfold formatNewsResponse. destruct (r_articles r) as [|a l].
  - split; reflexivity.
  - simpl Nat.eqb. cbv iota. split; [|discriminate].
    match goal with
    | |- forEachArticle 0 _ ?header = _ -> _ =>
        destruct (forEachArticle_appends (a :: l) 0 header) as [tail ->]
    end.
    intros H. apply (f_equal (take 4)) in H.
    unfold noNewsMessage, newspaper in H. simpl in H. discriminate.
Qed.

(** X22: For a limit of at least 1 the user is told that no news was found in
    exactly two cases: the primary provider answered with a blank content,
    or it failed and the alternate provider answered with no article. *)
Theorem formatNewsResponse_no_news_iff (env : Env) (this : NewsService)
    (toLocaleString : jsstring -> jsstring) (query : jsvalue) (limit : Z)
    (t : nat) :
  (1 <= limit)%Z ->
  exists r t',
    getLatestNews env this query limit t = (Return r, t')
    /\ (formatNewsResponse toLocaleString r = noNewsMessage <->
        (exists c, perplexityReply env this query limit = PContent c
                   /\ blank (default [] c) = true)
        \/ (primaryFails env this query limit
            /\ alternateAnswers env this query limit [])).
Proof.
  intros Hlimit.
  destruct (primary_answers_or_fails env this query limit) as [[c Hc] | Hp].
  - rewrite (getLatestNews_primary env this query limit t c Hc).
    rewrite (getNewsFromPerplexity_answer env this query limit t c Hc).
    eexists. eexists. split; [reflexivity|].
    rewrite formatNewsResponse_no_news. simpl r_articles.
    rewrite content_or_empty, parseNewsResponse_nil_iff. split.
    + intros Hblank. left. exists c. auto.
    + intros [(c' & Hc' & Hblank) | [Hp _]].
      * rewrite Hc in Hc'. injection Hc' as <-. exact Hblank.
      * destruct (Hp c Hc).
  - destruct (alternate_answers_or_fails env this query limit)
      as [[l Hl] | Ha].
    + rewrite (getLatestNews_alternate env this query limit t l Hp Hl).
      eexists. eexists. split; [reflexivity|].
      rewrite formatNewsResponse_no_news. simpl r_articles. split.
      * intros Hnil. right. split; [exact Hp|].
        destruct l; [exact Hl | discriminate].
      * intros [(c' & Hc' & _) | [_ [_ Hnil]]].
        -- destruct (Hp c' Hc').
        -- destruct Hl as [_ Hl]. rewrite Hl in Hnil.
           injection Hnil as ->. reflexivity.
    + rewrite (getLatestNews_mock env this query limit t Hp Ha).
      destruct (getMockNews_result env query limit t) as (a & b & -> & _).
      eexists. eexists. split; [reflexivity|].
      rewrite formatNewsResponse_no_news. simpl r_articles. split.
      * intros Hnil. apply (f_equal (@length NewsArticle)) in Hnil.
        rewrite (mock_slice_length limit a b Hlimit) in Hnil.
        simpl in Hnil. lia.
      * intros [(c' & Hc' & _) | [_ Hl]].
        -- destruct (Hp c' Hc').
        -- destruct (alternate_answers_not_fails env this query limit []
                       Hl Ha).
Qed.

(** X24: The labels of the command handlers against the table of the service:
    [tech] is not a key of the table, so its query is the generic
    [latest tech news today]; each of the other seven labels is a key and
    gets the template of the table. *)
Theorem newsCategories_queries (env : Env) (this : NewsService)
    (category : jsstring) (limit : Z) :
  category ∈ newsCategories ->
  exists q,
    getNewsByCategory env this category limit =
    getLatestNews env this (VString q) limit
    /\ (category = str "tech" -> q = str "latest tech news today")
    /\ (category <> str "tech" -> categoryQueries !! category = Some q).
Proof.
  unfold newsCategories. intros Hin.
  apply elem_of_cons in Hin as [-> | Hin].
  - exists (str "latest tech news today"). split; [|split].
    + apply (getNewsByCategory_generic env this (str "tech")).
      vm_compute. reflexivity.
    + reflexivity.
    + contradiction.
  - repeat (apply elem_of_cons in Hin as [-> | Hin];
            [match goal with
             | |- context [getNewsByCategory _ _ ?label _] =>
                 destruct (categoryQueries !! label) as [q|] eqn:Hq;
                   [|vm_compute in Hq; discriminate];
                 exists q; split; [|split];
                   [ apply getNewsByCategory_known;
                       [ exact Hq
                       | apply nonempty_true;
                         exact (categoryQueries_truthy _ q Hq) ]
                   | intros Heq; vm_compute in Heq; discriminate
                   | intros _; reflexivity ]
             end|]).
    inversion Hin.
Qed.

(** ** The theorems at concrete inputs *)

Lemma getLatestNews_blank_content_witness :
  getLatestNews blankEnv sampleService (VString (str "news")) 3 0%nat =
  (Return (mkResponse [] (VString (str "news")) (clock blankEnv 0%nat)),
   1%nat).
Proof.
  apply (getLatestNews_blank_content blankEnv sampleService
           (VString (str "news")) 3 0%nat (Some (str "  ")));
    reflexivity.
Defined.

Lemma getLatestNews_placeholder_any_limit_witness :
  exists r t',
    getLatestNews downEnv sampleService (VString (str "news")) (-1) 0%nat
    = (Return r, t')
    /\ Z.of_nat (length (r_articles r)) =
       (if (-1 <? 0)%Z then Z.max (2 + -1) 0 else Z.min (-1) 2)
    /\ (length (r_articles r) <= 2)%nat.
Proof.
  apply (getLatestNews_placeholder_any_limit downEnv sampleService
           (VString (str "news")) (-1) 0%nat).
  - intros c. discriminate.
  - right. intros l. discriminate.
Defined.

Lemma getLatestNews_short_circuit_witness :
  getLatestNews
    (mkEnv (clock twoStoriesEnv) (perplexity_post twoStoriesEnv)
       (fun _ => NArticles [sampleRaw]))
    (mkService (perplexityApiKey sampleService) []) (VString (str "news")) 3
    0%nat
  = getLatestNews twoStoriesEnv sampleService (VString (str "news")) 3 0%nat.
Proof.
  apply (getLatestNews_short_circuit twoStoriesEnv sampleService
           (VString (str "news")) 3 0%nat (fun _ => NArticles [sampleRaw]) []).
  exists (Some twoStories). reflexivity.
Defined.

Lemma getLatestNews_no_key_witness :
  getLatestNews
    (mkEnv (clock downEnv) (perplexity_post downEnv)
       (fun _ => NArticles [sampleRaw]))
    soloService (VString (str "news")) 3 0%nat
  = getLatestNews downEnv soloService (VString (str "news")) 3 0%nat.
Proof.
  apply (getLatestNews_no_key downEnv soloService (VString (str "news")) 3
           0%nat (fun _ => NArticles [sampleRaw])).
  reflexivity.
Defined.

Lemma looksLikeTitle_sentence_witness :
  looksLikeTitle (str "Stocks rose sharply today.") = false.
Proof.
  apply (looksLikeTitle_sentence (str "Stocks rose sharply today.")).
  - reflexivity.
  - intros Hin. apply list_elem_of_In in Hin. simpl in Hin.
    repeat (destruct Hin as [Heq | Hin]; [discriminate|]). exact Hin.
  - left. reflexivity.
Defined.

Lemma cleanTitle_last_hyphen_witness :
  (forallb notHyphen (str "COVID-19 cases rise") = true ->
   cleanTitle (str "COVID-19 cases rise") = trim (str "COVID-19 cases rise"))
  /\ (forall p q,
         str "COVID-19 cases rise" = p ++ 45 :: q ->
         forallb notHyphen q = true ->
         cleanTitle (str "COVID-19 cases rise") = trim p).
Proof.
  apply (cleanTitle_last_hyphen (str "COVID-19 cases rise")). reflexivity.
Defined.

Lemma cleanTitle_marker_witness :
  cleanTitle (str "12." ++ str "  Storm Hits City") =
  cleanTitle (trimStart (str "  Storm Hits City")).
Proof.
  apply (cleanTitle_marker (str "12.") (str "  Storm Hits City")).
  - left. exists (str "12"). split; [discriminate|]. split; reflexivity.
  - reflexivity.
Defined.

Lemma extractSource_suffix_witness :
  (exists pre w,
      str "Storm hits city - Local News" = pre ++ w
      /\ forallb letterOrSpace w = true /\ str "Local News" = trim w)
  /\ forallb letterOrSpace (str "Local News") = true.
Proof.
  apply (extractSource_suffix (str "Storm hits city - Local News")
           (str "Local News")).
  vm_compute. reflexivity.
Defined.

Lemma formatNewsResponse_no_news_iff_witness :
  exists r t',
    getLatestNews blankEnv sampleService (VString (str "news")) 3 0%nat
    = (Return r, t')
    /\ (formatNewsResponse (fun stamp => stamp) r = noNewsMessage <->
        (exists c,
            perplexityReply blankEnv sampleService (VString (str "news")) 3
            = PContent c
            /\ blank (default [] c) = true)
        \/ (primaryFails blankEnv sampleService (VString (str "news")) 3
            /\ alternateAnswers blankEnv sampleService
                 (VString (str "news")) 3 [])).
Proof.
  apply (formatNewsResponse_no_news_iff blankEnv sampleService
           (fun stamp => stamp) (VString (str "news")) 3 0%nat).
  lia.
Defined.

Lemma newsCategories_queries_witness :
  exists q,
    getNewsByCategory downEnv sampleService (str "sports") 5 =
    getLatestNews downEnv sampleService (VString q) 5
    /\ (str "sports" = str "tech" -> q = str "latest tech news today")
    /\ (str "sports" <> str "tech" ->
        categoryQueries !! str "sports" = Some q).
Proof.
  apply (newsCategories_queries downEnv sampleService (str "sports") 5).
  unfold newsCategories. do 2 right. left.
Defined.

(** X13: [getNewsByCategory] never raises, whatever the label and whatever the
    providers do: also a label that hits an inherited property ends in a
    result. *)
Theorem getNewsByCategory_total (env : Env) (this : NewsService)
    (category : jsstring) (limit : Z) (t : nat) :
  exists r t', getNewsByCategory env this category limit t = (Return r, t').
Proof. exact (getNewsByCategory_returns env this category limit t). Qed.
